(** * Secure Filesystem API: path confinement and delete confirmation

    A shallow embedding of the filesystem server
    (servers/filesystem/app): the path guard of [dependencies.py], the
    file-backed confirmation store of [confirmations.py] and the request
    handlers of [routers/files.py], [routers/directories.py] and
    [routers/path_ops.py].

    Conventions of the embedding.
    - A Python [str] is a [string]; only prefix, substring, concatenation
      and [lower()] are used by the code, and [lower] is a parameter.
    - A file holds its content as the host stores it; reading it as text
      decodes the content ([decode_utf8], a parameter) and translates the
      line ends.
    - A [pathlib.Path] is the list of its components (POSIX flavour);
      [path_str] is Python's [str(path)].
    - A [datetime] is an absolute instant, a number of microseconds ([Z]).
    - A handler is a computation in the monad [M]: it threads the host
      state ([world]) and either returns or raises an exception ([exn]).
      Every access to the host is recorded in [io_log]. *)

From Stdlib Require Import ZArith String Ascii List Bool Lia.
From stdpp Require Import base option list gmap strings pretty.

#[local] Set Warnings "-register-all".

Local Open Scope string_scope.
Local Open Scope list_scope.
Local Open Scope Z_scope.

(** ** Python string operations *)

Module PyStr.

(** [s.startswith(p)] *)
Fixpoint startswith (s p : string) {struct p} : bool :=
  match p with
  | EmptyString => true
  | String a p' =>
      match s with
      | EmptyString => false
      | String b s' => if Ascii.eqb a b then startswith s' p' else false
      end
  end.

(** [s[n:]] *)
Fixpoint drop (n : nat) (s : string) : string :=
  match n with
  | O => s
  | S n' => match s with EmptyString => EmptyString | String _ s' => drop n' s' end
  end.

(** [s[:n]] *)
Fixpoint take (n : nat) (s : string) : string :=
  match n with
  | O => EmptyString
  | S n' => match s with EmptyString => EmptyString | String c s' => String c (take n' s') end
  end.

(** [sub in s] *)
Fixpoint contains (sub s : string) : bool :=
  startswith s sub ||
  match s with
  | EmptyString => false
  | String _ s' => contains sub s'
  end.

(** [s.replace(old, new, 1)] *)
Fixpoint replace_first (old new s : string) : string :=
  if startswith s old then new +:+ drop (String.length old) s
  else match s with
       | EmptyString => EmptyString
       | String c s' => String c (replace_first old new s')
       end.

(** [sep.join(parts)] *)
Fixpoint join (sep : string) (parts : list string) : string :=
  match parts with
  | [] => EmptyString
  | [x] => x
  | x :: rest => x +:+ sep +:+ join sep rest
  end.

(** What a file opened in text mode with [newline=None] hands over for
    the decoded text [s]: ["\r\n"] and a ["\r"] on its own are read as
    ["\n"]. *)
Fixpoint universal_newlines (s : string) : string :=
  match s with
  | EmptyString => EmptyString
  | String c s' =>
      if Ascii.eqb c "013"
      then String "010"
             match s' with
             | EmptyString => EmptyString
             | String d s'' =>
                 if Ascii.eqb d "010" then universal_newlines s''
                 else universal_newlines s'
             end
      else String c (universal_newlines s')
  end.

(** [old] occurs in [s] between [pre] and [post], and nowhere further
    to the left. *)
Definition first_occurrence (old s pre post : string) : Prop :=
  s = pre +:+ old +:+ post ∧
  ∀ pre' post', s = pre' +:+ old +:+ post' →
                (String.length pre ≤ String.length pre')%nat.

End PyStr.

(** ** Paths *)

Definition Path := list string.

(** [str(path)] for an absolute POSIX path. *)
Definition path_str (p : Path) : string := "/" +:+ PyStr.join "/" p.

(** [path / name] *)
Definition path_join (p : Path) (name : string) : Path := p ++ [name].

(** ** Exceptions and responses *)

(** The [detail] of an [HTTPException]: a message, or the body that
    [normalize_path] builds, with its four fields. *)
Inductive detail :=
| Text (msg : string)
| Denied (error requested_path message : string) (allowed_directories : list string).

Inductive exn :=
| HTTPException (status_code : Z) (d : detail)
| PermissionError (msg : string)
| FileNotFoundError (msg : string)
| OSError (msg : string)
| ValueError (msg : string)
| TypeError (msg : string)
| AttributeError (msg : string)
| JSONDecodeError (msg : string).

(** [isinstance(e, OSError)]; [IOError] is an alias of [OSError]. *)
Definition is_OSError (e : exn) : bool :=
  match e with
  | PermissionError _ | FileNotFoundError _ | OSError _ => true
  | _ => false
  end.

Definition is_PermissionError (e : exn) : bool :=
  match e with PermissionError _ => true | _ => false end.

Definition is_FileNotFoundError (e : exn) : bool :=
  match e with FileNotFoundError _ => true | _ => false end.

(** [str(e)]. Starlette prints an [HTTPException] as ["<status>: <detail>"].
    No handler of this program formats a denial body, so its rendering is
    kept to the message. *)
Definition exn_str (e : exn) : string :=
  match e with
  | HTTPException st (Text msg) => pretty st +:+ ": " +:+ msg
  | HTTPException st (Denied _ _ msg _) => pretty st +:+ ": " +:+ msg
  | PermissionError msg | FileNotFoundError msg | OSError msg
  | ValueError msg | TypeError msg | AttributeError msg | JSONDecodeError msg => msg
  end.

(** The error kinds of the specification, read off the status code; a
    host permission failure shares the 403 of a denial, and a non-empty
    directory the 400 of invalid input. *)
Inductive error_kind := AccessDenied | NotFound | InvalidInput | Internal.

Definition kind_of_status (st : Z) : error_kind :=
  if st =? 403 then AccessDenied
  else if st =? 404 then NotFound
  else if st =? 400 then InvalidInput
  else Internal.

(** FastAPI answers an exception that is not an [HTTPException] with a
    500. *)
Definition status_of (e : exn) : Z :=
  match e with
  | HTTPException st _ => st
  | _ => 500
  end.

(** ** The host file system *)

(** A directory lists its entries in the order the host enumerates
    them; a file holds its content as stored, before any decoding. *)
Inductive node :=
| File (content : string)
| Dir (entries : list (string * node)).

Definition is_dir_node (n : node) : bool :=
  match n with Dir _ => true | File _ => false end.

Definition is_file_node (n : node) : bool :=
  match n with File _ => true | Dir _ => false end.

Module Entries.

Fixpoint lookup (name : string) (es : list (string * node)) : option node :=
  match es with
  | [] => None
  | (k, n) :: rest => if String.eqb k name then Some n else lookup name rest
  end.

Fixpoint remove (name : string) (es : list (string * node)) : list (string * node) :=
  match es with
  | [] => []
  | (k, n) :: rest => if String.eqb k name then rest else (k, n) :: remove name rest
  end.

(** Replace the entry called [name], or add it at the end. *)
Fixpoint set (name : string) (n : node) (es : list (string * node)) : list (string * node) :=
  match es with
  | [] => [(name, n)]
  | (k, m) :: rest => if String.eqb k name then (k, n) :: rest else (k, m) :: set name n rest
  end.

End Entries.

Module FS.

Fixpoint lookup (n : node) (p : Path) : option node :=
  match p with
  | [] => Some n
  | c :: p' =>
      match n with
      | File _ => None
      | Dir es =>
          match Entries.lookup c es with
          | Some child => lookup child p'
          | None => None
          end
      end
  end.

(** Some component of [p] before its last is a regular file: the host
    answers an access to [p] with [ENOTDIR]. *)
Fixpoint below_file (n : node) (p : Path) : bool :=
  match p with
  | [] => false
  | c :: p' =>
      match n with
      | File _ => true
      | Dir es =>
          match Entries.lookup c es with
          | Some child => below_file child p'
          | None => false
          end
      end
  end.

(** The error of an access to a path at which there is nothing:
    [NotADirectoryError] below a regular file, else [FileNotFoundError]. *)
Definition missing (n : node) (p : Path) : exn :=
  if below_file n p then OSError "Not a directory"
  else FileNotFoundError "No such file or directory".

(** Replace the node at [p] by the outcome of [f] on it; [f] sees [None]
    where the last component is missing, and returns [None] to remove the
    entry. A missing or non-directory parent is an error. *)
Fixpoint alter (f : option node → exn + option node) (n : node) (p : Path) : exn + node :=
  match p with
  | [] => inl (OSError "Device or resource busy")
  | [c] =>
      match n with
      | File _ => inl (OSError "Not a directory")
      | Dir es =>
          match f (Entries.lookup c es) with
          | inl e => inl e
          | inr (Some child') => inr (Dir (Entries.set c child' es))
          | inr None => inr (Dir (Entries.remove c es))
          end
      end
  | c :: p' =>
      match n with
      | File _ => inl (OSError "Not a directory")
      | Dir es =>
          match Entries.lookup c es with
          | None => inl (FileNotFoundError "No such file or directory")
          | Some child =>
              match alter f child p' with
              | inl e => inl e
              | inr child' => inr (Dir (Entries.set c child' es))
              end
          end
      end
  end.

(** [Path.unlink()] *)
Definition unlink : node → Path → exn + node :=
  alter (λ o, match o with
              | Some (File _) => inr None
              | Some (Dir _) => inl (OSError "Is a directory")
              | None => inl (FileNotFoundError "No such file or directory")
              end).

(** [Path.rmdir()] *)
Definition rmdir : node → Path → exn + node :=
  alter (λ o, match o with
              | Some (Dir []) => inr None
              | Some (Dir (_ :: _)) => inl (OSError "Directory not empty")
              | Some (File _) => inl (OSError "Not a directory")
              | None => inl (FileNotFoundError "No such file or directory")
              end).

(** [shutil.rmtree(path)] *)
Definition rmtree : node → Path → exn + node :=
  alter (λ o, match o with
              | Some (Dir _) => inr None
              | Some (File _) => inl (OSError "Not a directory")
              | None => inl (FileNotFoundError "No such file or directory")
              end).

(** [Path.write_text(content)] *)
Definition write_text (content : string) : node → Path → exn + node :=
  alter (λ o, match o with
              | Some (Dir _) => inl (OSError "Is a directory")
              | _ => inr (Some (File content))
              end).

(** [Path.mkdir(parents=True, exist_ok=True)] *)
Fixpoint mkdir_p (n : node) (p : Path) : exn + node :=
  match n with
  | File _ => inl (OSError "File exists")
  | Dir es =>
      match p with
      | [] => inr n
      | c :: p' =>
          let child := default (Dir []) (Entries.lookup c es) in
          match mkdir_p child p' with
          | inl e => inl e
          | inr child' => inr (Dir (Entries.set c child' es))
          end
      end
  end.

Definition dir_names (es : list (string * node)) : list string :=
  map fst (filter (λ e, is_dir_node (snd e) = true) es).

Definition file_names (es : list (string * node)) : list string :=
  map fst (filter (λ e, is_file_node (snd e) = true) es).

(** [os.walk(top)]: top-down, one triple [(root, dirs, files)] per
    directory; nothing for a file. With [onerror=None] a directory that
    the host does not let the walk scan ([denied]) is passed over in
    silence, and with it all that lies below; its name still stands among
    the [dirs] of its parent. *)
Fixpoint walk (denied : Path → bool) (root : Path) (n : node)
    : list (Path * list string * list string) :=
  match n with
  | File _ => []
  | Dir es =>
      if denied root then []
      else
        (root, dir_names es, file_names es) ::
        (fix descend (l : list (string * node)) : list (Path * list string * list string) :=
           match l with
           | [] => []
           | (name, child) :: rest =>
               walk denied (path_join root name) child ++ descend rest
           end) es
  end.


End FS.

(** ** The confirmation snapshot file *)

(** A pending confirmation as the handlers hold it in memory. *)
Record confirmation := Confirmation {
  c_path : string;
  c_recursive : bool;
  c_expiry : Z
}.

(** Why the body of the loop of [load_confirmations] raises on an entry:
    no ["expiry"] key ([KeyError]), a value that is not text ([TypeError]),
    text that is not an ISO date ([ValueError]), or a date without offset,
    which cannot be compared with the aware [now] ([TypeError]). *)
Inductive entry_failure := NoExpiryKey | ExpiryNotText | ExpiryNotISO | ExpiryNaive.

(** An entry of the JSON object in the file. [datetime.isoformat] and
    [datetime.fromisoformat] are inverse on aware instants, so an entry
    written by [save_confirmations] is read back as [Stored c]. An entry
    with a readable expiry but without ["path"] or ["recursive"], which
    [save_confirmations] never writes, is outside the model. *)
Inductive raw_entry :=
| Stored (c : confirmation)
| Broken (why : entry_failure).

(** What [CONFIRMATION_FILE] holds: nothing, something [open] refuses,
    text [json.load] rejects, a JSON object, or content on which the body
    of [load_confirmations] raises an exception it does not catch (a JSON
    array, bytes that are not text). *)
Inductive snapshot_file :=
| Missing
| Unreadable
| Malformed
| Snapshot (data : gmap string raw_entry)
| Unexpected (e : exn).

(** ** Host state and access log *)

Inductive event :=
| EvResolve (requested_path : string)
| EvStat (p : Path)
| EvStatConf
| EvReadConf
| EvWriteConf
| EvRead (p : Path)
| EvWrite (p : Path)
| EvListDir (p : Path)
| EvMkdir (p : Path)
| EvUnlink (p : Path)
| EvRmdir (p : Path)
| EvRmtree (p : Path)
| EvMove (src dst : Path).

(** The stat calls: path resolution and existence or type tests. *)
Definition is_stat (e : event) : bool :=
  match e with
  | EvResolve _ | EvStat _ | EvStatConf => true
  | _ => false
  end.

(** The snapshot file lies in the working directory of the server; it
    is kept apart from the tree of the path operations, which is to say
    that the working directory is taken to lie outside the allowed
    directories. *)
Record world := World {
  fs : node;
  refused : Path → bool;          (* paths on which the host denies permission *)
  conf_file : snapshot_file;
  conf_writable : bool;           (* whether [open("w")] on the snapshot succeeds *)
  io_log : list event
}.

Definition set_fs (n : node) (w : world) : world :=
  World n (refused w) (conf_file w) (conf_writable w) (io_log w).

Definition set_conf_file (s : snapshot_file) (w : world) : world :=
  World (fs w) (refused w) s (conf_writable w) (io_log w).

Definition add_log (e : event) (w : world) : world :=
  World (fs w) (refused w) (conf_file w) (conf_writable w) (io_log w ++ [e]).

(** ** The handler monad *)

Definition M (A : Type) : Type := world → (exn + A) * world.

Definition ret {A} (a : A) : M A := λ w, (inr a, w).

Definition raise {A} (e : exn) : M A := λ w, (inl e, w).

Definition bind {A B} (m : M A) (k : A → M B) : M B :=
  λ w, match m w with
       | (inr a, w') => k a w'
       | (inl e, w') => (inl e, w')
       end.

(** [try: m except ... as e: h e]; a handler that does not match re-raises. *)
Definition try_except {A} (m : M A) (h : exn → M A) : M A :=
  λ w, match m w with
       | (inr a, w') => (inr a, w')
       | (inl e, w') => h e w'
       end.

Notation "'let*' x := m 'in' k" := (bind m (λ x, k))
  (at level 10, x name, m at level 100, k at level 200).
Notation "m ;> k" := (bind m (λ _, k))
  (at level 100, k at level 200, right associativity).

Definition get_world : M world := λ w, (inr w, w).
Definition tell (e : event) : M unit := λ w, (inr tt, add_log e w).
Definition lift_fs (f : node → exn + node) : M unit :=
  λ w, match f (fs w) with
       | inl e => (inl e, w)
       | inr n => (inr tt, set_fs n w)
       end.

(** Host permission check in front of an access to [p]. *)
Definition check_permission (p : Path) : M unit :=
  let* w := get_world in
  if refused w p then raise (PermissionError "Permission denied") else ret tt.

(** [bytes.decode("utf-8")]: the text, or why the bytes are not UTF-8. *)
Inductive decoding :=
| Decoded (text : string)
| Undecodable (reason : string).

Module Host.

Definition exists_ (p : Path) : M bool :=
  tell (EvStat p) ;>
  let* w := get_world in ret (bool_decide (is_Some (FS.lookup (fs w) p))).

Definition is_file (p : Path) : M bool :=
  tell (EvStat p) ;>
  let* w := get_world in
  ret (match FS.lookup (fs w) p with Some (File _) => true | _ => false end).

Definition is_dir (p : Path) : M bool :=
  tell (EvStat p) ;>
  let* w := get_world in
  ret (match FS.lookup (fs w) p with Some (Dir _) => true | _ => false end).

(** [path.open("r")] and the read of the whole file: the content as
    stored. *)
Definition open_read (p : Path) : M string :=
  tell (EvRead p) ;>
  check_permission p ;>
  let* w := get_world in
  match FS.lookup (fs w) p with
  | Some (File content) => ret content
  | Some (Dir _) => raise (OSError "Is a directory")
  | None => raise (FS.missing (fs w) p)
  end.

(** [Path.read_text(encoding="utf-8")]: the content is decoded, which
    fails with a [UnicodeDecodeError] (a [ValueError]) where it is not
    UTF-8, and the line ends of the text are translated. *)
Definition read_text (decode : string → decoding) (p : Path) : M string :=
  let* content := open_read p in
  match decode content with
  | Decoded text => ret (PyStr.universal_newlines text)
  | Undecodable reason => raise (ValueError reason)
  end.

Definition write_text (p : Path) (content : string) : M unit :=
  tell (EvWrite p) ;> check_permission p ;> lift_fs (λ n, FS.write_text content n p).

Definition unlink (p : Path) : M unit :=
  tell (EvUnlink p) ;> check_permission p ;> lift_fs (λ n, FS.unlink n p).

Definition rmdir (p : Path) : M unit :=
  tell (EvRmdir p) ;> check_permission p ;> lift_fs (λ n, FS.rmdir n p).

Definition rmtree (p : Path) : M unit :=
  tell (EvRmtree p) ;> check_permission p ;> lift_fs (λ n, FS.rmtree n p).

Definition mkdir_p (p : Path) : M unit :=
  tell (EvMkdir p) ;> check_permission p ;> lift_fs (λ n, FS.mkdir_p n p).

(** [Path.iterdir()] *)
Definition iterdir (p : Path) : M (list (string * node)) :=
  tell (EvListDir p) ;>
  check_permission p ;>
  let* w := get_world in
  match FS.lookup (fs w) p with
  | Some (Dir es) => ret es
  | Some (File _) => raise (OSError "Not a directory")
  | None => raise (FS.missing (fs w) p)
  end.

(** [os.walk(p)]; errors of the scan are ignored, as [os.walk] does by
    default: a directory the host refuses to list is passed over. The
    whole traversal is logged as one event. *)
Definition walk (p : Path) : M (list (Path * list string * list string)) :=
  tell (EvListDir p) ;>
  let* w := get_world in
  ret (match FS.lookup (fs w) p with
       | Some n => FS.walk (refused w) p n
       | None => []
       end).

(** [CONFIRMATION_FILE.exists()] *)
Definition conf_exists : M bool :=
  tell EvStatConf ;>
  let* w := get_world in
  ret (match conf_file w with Missing => false | _ => true end).

(** [with CONFIRMATION_FILE.open("r") as f: json.load(f)] *)
Definition conf_load : M (gmap string raw_entry) :=
  tell EvReadConf ;>
  let* w := get_world in
  match conf_file w with
  | Missing => raise (FileNotFoundError "No such file or directory")
  | Unreadable => raise (PermissionError "Permission denied")
  | Malformed => raise (JSONDecodeError "Expecting value")
  | Snapshot data => ret data
  | Unexpected e => raise e
  end.

(** [with CONFIRMATION_FILE.open("w") as f: json.dump(data, f)] *)
Definition conf_dump (data : gmap string raw_entry) : M unit :=
  tell EvWriteConf ;>
  let* w := get_world in
  if conf_writable w then (λ w, (inr tt, set_conf_file (Snapshot data) w))
  else raise (PermissionError "Permission denied").

(** [CONFIRMATION_FILE.unlink()] *)
Definition conf_unlink : M unit :=
  tell EvWriteConf ;>
  let* w := get_world in
  if conf_writable w then (λ w, (inr tt, set_conf_file Missing w))
  else raise (PermissionError "Permission denied").

End Host.

Definition lift_result {A} (r : exn + A) : M A :=
  match r with
  | inl e => raise e
  | inr a => ret a
  end.

(** ** Requests and responses ([schemas.py]) *)

Record EditOperation := { oldText : string; newText : string }.

Record EditFileRequest := {
  ef_path : string;
  ef_edits : list EditOperation;
  ef_dryRun : bool
}.

Record SearchFilesRequest := {
  sf_path : string;
  sf_pattern : string;
  sf_excludePatterns : option (list string)
}.

Record SearchContentRequest := {
  sc_path : string;
  sc_search_query : string;
  sc_recursive : bool;
  sc_file_pattern : option string
}.

Record DeletePathRequest := {
  dp_path : string;
  dp_recursive : bool;
  dp_confirmation_token : option string
}.

Record MovePathRequest := { mv_source_path : string; mv_destination_path : string }.

Record WriteFileRequest := { wf_path : string; wf_content : string }.

Inductive tree_entry :=
| TreeEntry (name type : string) (children : option (list tree_entry)).

Record content_match := {
  file_path : string;
  line_number : Z;
  line_content : string
}.

Record metadata := {
  md_path : string;
  md_type : string;
  md_size_bytes : Z;
  md_modification_time_utc : string;
  md_creation_time_utc : string;
  md_last_metadata_change_time_utc : string
}.

Record stat_result := {
  st_size : Z;
  st_mtime : Z;
  st_ctime : Z;
  st_birthtime : option Z
}.

Inductive response :=
| SuccessResponse (message : string)
| ConfirmationRequiredResponse (message confirmation_token : string) (expires_at : Z)
| DiffResponse (diff : string)
| ReadFileResponse (content : string)
| DirectoryListing (listing : list (string * string))
| DirectoryTree (entries : list tree_entry)
| FileMatches (matches : list string)
| ContentMatches (matches : list content_match)
| NoContentMatches (matches : list string)
| MetadataResponse (m : metadata)
| AllowedDirectoriesResponse (allowed_directories : list string).

(** ** Confirmation tokens *)

Definition CONFIRMATION_TTL_SECONDS : Z := 60.

(** [timedelta(seconds=s)] in microseconds. *)
Definition timedelta_seconds (s : Z) : Z := s * 1000000.

Definition hex_digit (n : N) : ascii :=
  match (n mod 16)%N with
  | 0%N => "0" | 1%N => "1" | 2%N => "2" | 3%N => "3"
  | 4%N => "4" | 5%N => "5" | 6%N => "6" | 7%N => "7"
  | 8%N => "8" | 9%N => "9" | 10%N => "a" | 11%N => "b"
  | 12%N => "c" | 13%N => "d" | 14%N => "e" | _ => "f"
  end%char.

(** Two lower-case hexadecimal digits per byte, as [bytes.hex()]. *)
Fixpoint hex_of_bytes (bs : list N) : string :=
  match bs with
  | [] => EmptyString
  | b :: rest => String (hex_digit (b / 16)) (String (hex_digit b) (hex_of_bytes rest))
  end.

(** [secrets.token_hex(3)[:5]], from the three bytes the system source of
    randomness delivers. *)
Definition new_token (entropy : N * N * N) : string :=
  let '(b0, b1, b2) := entropy in
  PyStr.take 5 (hex_of_bytes [b0; b1; b2]).

(** The token that encodes a 20-bit number. *)
Definition token_of_index (i : N) : string :=
  String (hex_digit (i / 65536)) (String (hex_digit (i / 4096))
    (String (hex_digit (i / 256)) (String (hex_digit (i / 16))
      (String (hex_digit i) EmptyString)))).

(** ** [confirmations.py] *)

(** One turn of the loop of [load_confirmations]: the body under [try]
    either keeps the entry or moves on. *)
Definition load_entry (now : Z) (token : string) (details : raw_entry)
    (valid_confirmations : gmap string confirmation) : gmap string confirmation :=
  match details with
  | Stored c =>
      if c_expiry c >? now then <[token := c]> valid_confirmations
      else valid_confirmations
  | Broken _ => valid_confirmations
  end.

Definition load_confirmations (now : Z) : M (gmap string confirmation) :=
  let* present := Host.conf_exists in
  if negb present then ret ∅
  else
    try_except
      (let* data := Host.conf_load in
       ret (map_fold (load_entry now) ∅ data))
      (λ e, match e with
            | JSONDecodeError _ => ret ∅
            | _ => if is_OSError e then ret ∅ else raise e
            end).

Definition save_confirmations (confirmations : gmap string confirmation) : M unit :=
  try_except
    (Host.conf_dump (Stored <$> confirmations))
    (λ e, if is_OSError e then ret tt else raise e).

(** [cleanup_stale_confirmation_file], run once at startup. *)
Definition cleanup_stale_confirmation_file : M unit :=
  let* present := Host.conf_exists in
  if present then try_except Host.conf_unlink (λ e, if is_OSError e then ret tt else raise e)
  else ret tt.

(** ** The handlers *)

(** What the handlers take from their configuration and from the Python
    libraries, with nothing assumed about it. *)
Class Platform := {
  (** [config.ALLOWED_DIRECTORIES] *)
  ALLOWED_DIRECTORIES : list string;
  (** [pathlib.Path(os.path.expanduser(p)).resolve()]; a path string on
      which resolution itself raises is outside the model. *)
  resolve : string → Path;
  (** [str.lower] *)
  lower : string → string;
  (** [pathlib.Path(root).match(pattern)]; it raises [ValueError] on an
      empty pattern. *)
  path_match : Path → string → exn + bool;
  (** [difflib.unified_diff(a, b, fromfile, tofile)] and
      [str.splitlines(keepends=True)] *)
  unified_diff : list string → list string → string → string → list string;
  splitlines : string → list string;
  (** [bytes.decode("utf-8")] on the content of a file *)
  decode_utf8 : string → decoding;
  (** [Path.glob] and [Path.rglob] (the flag is [recursive]); the lines
      that iterating over a file opened with [errors="ignore"] gives for
      its content (decoded, what does not decode left out, line ends
      translated, cut after each line feed); [str.strip], [shutil.move],
      [Path.stat] and
      [datetime.fromtimestamp(t, tz=timezone.utc).isoformat()]. *)
  py_glob : bool → option string → node → Path → exn + list Path;
  file_lines : string → list string;
  strip : string → string;
  shutil_move : node → Path → Path → exn + node;
  os_stat : node → Path → exn + stat_result;
  iso_utc : Z → string
}.

Section Server.

Context `{Platform}.

(** *** [dependencies.py] *)

Definition normalize_path (requested_path : string) : M Path :=
  tell (EvResolve requested_path) ;>
  let requested := resolve requested_path in
  if existsb (λ allowed,
                PyStr.startswith (lower (path_str requested)) (lower allowed))
             ALLOWED_DIRECTORIES
  then ret requested
  else raise (HTTPException 403
                (Denied "Access Denied" (path_str requested)
                   "Requested path is outside allowed directories."
                   ALLOWED_DIRECTORIES)).

(** *** [routers/files.py] *)

Definition read_file (path : string) : M response :=
  let* p := normalize_path path in
  try_except
    (let* file_content := Host.read_text decode_utf8 p in
     ret (ReadFileResponse file_content))
    (λ e, if is_FileNotFoundError e
          then raise (HTTPException 404 (Text ("File not found: " +:+ path)))
          else if is_PermissionError e
          then raise (HTTPException 403 (Text ("Permission denied for file: " +:+ path)))
          else raise (HTTPException 500
                        (Text ("Failed to read file " +:+ path +:+ ": " +:+ exn_str e)))).

Definition write_file (data : WriteFileRequest) : M response :=
  let* p := normalize_path (wf_path data) in
  try_except
    (Host.write_text p (wf_content data) ;>
     ret (SuccessResponse ("Successfully wrote to " +:+ wf_path data)))
    (λ e, if is_PermissionError e
          then raise (HTTPException 403
                        (Text ("Permission denied to write to " +:+ wf_path data)))
          else raise (HTTPException 500
                        (Text ("Failed to write to " +:+ wf_path data +:+ ": " +:+ exn_str e)))).

(** The loop over [data.edits]. *)
Fixpoint apply_edits (edits : list EditOperation) (modified : string) : exn + string :=
  match edits with
  | [] => inr modified
  | edit :: rest =>
      if negb (PyStr.contains (oldText edit) modified)
      then inl (HTTPException 400
                  (Text ("Edit failed: oldText not found in content: '"
                         +:+ PyStr.take 50 (oldText edit) +:+ "...'")))
      else apply_edits rest (PyStr.replace_first (oldText edit) (newText edit) modified)
  end.

Definition edit_file (data : EditFileRequest) : M response :=
  let* p := normalize_path (ef_path data) in
  let* original :=
    try_except (Host.read_text decode_utf8 p)
      (λ e, if is_FileNotFoundError e
            then raise (HTTPException 404 (Text ("File not found: " +:+ ef_path data)))
            else if is_PermissionError e
            then raise (HTTPException 403
                          (Text ("Permission denied to read file: " +:+ ef_path data)))
            else raise (HTTPException 500
                          (Text ("Failed to read file " +:+ ef_path data
                                 +:+ " for editing: " +:+ exn_str e)))) in
  try_except
    (let* modified := lift_result (apply_edits (ef_edits data) original) in
     if ef_dryRun data then
       let diff_output :=
         unified_diff (splitlines original) (splitlines modified)
           ("a/" +:+ ef_path data) ("b/" +:+ ef_path data) in
       ret (DiffResponse (PyStr.join "" diff_output))
     else
       Host.write_text p modified ;>
       ret (SuccessResponse ("Successfully edited file " +:+ ef_path data)))
    (λ e, if is_PermissionError e
          then raise (HTTPException 403
                        (Text ("Permission denied to write edited file: " +:+ ef_path data)))
          else raise (HTTPException 500
                        (Text ("Failed to write edited file " +:+ ef_path data
                               +:+ ": " +:+ exn_str e)))).

(** *** [routers/directories.py] *)

Definition create_directory (path : string) : M response :=
  let* dir_path := normalize_path path in
  try_except
    (Host.mkdir_p dir_path ;>
     ret (SuccessResponse ("Successfully created directory " +:+ path)))
    (λ e, if is_PermissionError e
          then raise (HTTPException 403
                        (Text ("Permission denied to create directory " +:+ path)))
          else raise (HTTPException 500
                        (Text ("Failed to create directory " +:+ path +:+ ": " +:+ exn_str e)))).

Definition entry_type (n : node) : string :=
  if is_dir_node n then "directory" else "file".

Definition list_directory (path : string) : M response :=
  let* dir_path := normalize_path path in
  let* isd := Host.is_dir dir_path in
  if negb isd then raise (HTTPException 400 (Text "Provided path is not a directory"))
  else
    let* entries := Host.iterdir dir_path in
    ret (DirectoryListing (map (λ entry, (fst entry, entry_type (snd entry))) entries)).

(** [build_tree(current)], where the host holds [n] at [current]. Every
    level starts with [current.iterdir()], which the host may refuse and
    which raises on a file. *)
Fixpoint build_tree (current : Path) (n : node) : M (list tree_entry) :=
  tell (EvListDir current) ;>
  check_permission current ;>
  match n with
  | File _ => raise (OSError "Not a directory")
  | Dir entries =>
      (fix each (l : list (string * node)) : M (list tree_entry) :=
         match l with
         | [] => ret []
         | (name, item) :: rest =>
             let* children :=
               if is_dir_node item
               then let* below := build_tree (path_join current name) item in
                    ret (Some below)
               else ret None in
             let* more := each rest in
             ret (TreeEntry name (entry_type item) children :: more)
         end) entries
  end.

Definition directory_tree (path : string) : M response :=
  let* base_path := normalize_path path in
  let* w := get_world in
  let* entries :=
    match FS.lookup (fs w) base_path with
    | Some n => build_tree base_path n
    | None => Host.iterdir base_path ;> ret []
    end in
  ret (DirectoryTree entries).

(** The loop over [data.excludePatterns], with its [break]. *)
Fixpoint excluded_by (root : Path) (patterns : list string) : exn + bool :=
  match patterns with
  | [] => inr false
  | pattern :: rest =>
      match path_match root pattern with
      | inl e => inl e
      | inr true => inr true
      | inr false => excluded_by root rest
      end
  end.

(** The inner loop over [files + dirs] for one walked directory. *)
Definition matching_items (pattern : string) (root_path : Path) (items : list string)
  : list string :=
  map (λ item, path_str (path_join root_path item))
    (filter (λ item,
               PyStr.contains (lower pattern) (lower item) = true ∧
               existsb (λ alt, PyStr.startswith (path_str (path_join root_path item)) alt)
                 ALLOWED_DIRECTORIES = true)
       items).

(** The loop over [os.walk(base_path)], accumulating [results]. *)
Fixpoint search_loop (data : SearchFilesRequest)
    (walked : list (Path * list string * list string)) (results : list string)
  : exn + list string :=
  match walked with
  | [] => inr results
  | (root, dirs, files) :: rest =>
      match sf_excludePatterns data with
      | None => inl (TypeError "'NoneType' object is not iterable")
      | Some patterns =>
          match excluded_by root patterns with
          | inl e => inl e
          | inr true => search_loop data rest results
          | inr false =>
              search_loop data rest
                (results ++ matching_items (sf_pattern data) root (files ++ dirs))
          end
      end
  end.

Definition search_files (data : SearchFilesRequest) : M response :=
  let* base_path := normalize_path (sf_path data) in
  let* walked := Host.walk base_path in
  let* results := lift_result (search_loop data walked []) in
  ret (FileMatches (match results with
                    | [] => ["No matches found"]
                    | _ => results
                    end)).

(** The lines of one file that contain the query, numbered from 1. *)
Fixpoint matching_lines (query_lower : string) (item_path : Path) (line_num : Z)
    (lines : list string) : list content_match :=
  match lines with
  | [] => []
  | line :: rest =>
      (if PyStr.contains query_lower (lower line)
       then [{| file_path := path_str item_path;
                line_number := line_num;
                line_content := strip line |}]
       else [])
      ++ matching_lines query_lower item_path (line_num + 1) rest
  end.

(** The loop over the paths the glob yields; a file that cannot be read
    is skipped. *)
Fixpoint scan_files (query_lower : string) (items : list Path) : M (list content_match) :=
  match items with
  | [] => ret []
  | item_path :: rest =>
      let* isf := Host.is_file item_path in
      let* found :=
        if isf then
          try_except
            (let* content := Host.open_read item_path in
             ret (matching_lines query_lower item_path 1 (file_lines content)))
            (λ _, ret [])
        else ret [] in
      let* more := scan_files query_lower rest in
      ret (found ++ more)
  end.

Definition search_content (data : SearchContentRequest) : M response :=
  let* base_path := normalize_path (sc_path data) in
  let search_query_lower := lower (sc_search_query data) in
  let* isd := Host.is_dir base_path in
  if negb isd then raise (HTTPException 400 (Text "Provided path is not a directory"))
  else
    tell (EvListDir base_path) ;>
    let* w := get_world in
    let* items := lift_result (py_glob (sc_recursive data) (sc_file_pattern data)
                                 (fs w) base_path) in
    let* results := scan_files search_query_lower items in
    ret (match results with
         | [] => NoContentMatches ["No matches found"]
         | _ => ContentMatches results
         end).

(** *** [routers/path_ops.py] *)

(** Python's truth value of [data.confirmation_token]: [None] and the
    empty string count as absent. *)
Definition supplied_token (data : DeletePathRequest) : option string :=
  match dp_confirmation_token data with
  | Some EmptyString => None
  | other => other
  end.

(** The deletion proper, the body of the [try] of [delete_path]. *)
Definition perform_delete (data : DeletePathRequest) (path : Path) : M response :=
  try_except
    (let* present := Host.exists_ path in
     if negb present
     then raise (HTTPException 404 (Text ("Path not found: " +:+ dp_path data)))
     else
       let* isf := Host.is_file path in
       if isf then
         Host.unlink path ;>
         ret (SuccessResponse ("Successfully deleted file: " +:+ dp_path data))
       else
         let* isd := Host.is_dir path in
         if isd then
           if dp_recursive data then
             Host.rmtree path ;>
             ret (SuccessResponse
                    ("Successfully deleted directory recursively: " +:+ dp_path data))
           else
             try_except
               (Host.rmdir path ;>
                ret (SuccessResponse
                       ("Successfully deleted empty directory: " +:+ dp_path data)))
               (λ e, if is_OSError e
                     then raise (HTTPException 400
                                   (Text ("Directory not empty. Use 'recursive=True' to delete non-empty directories. Original error: "
                                          +:+ exn_str e)))
                     else raise e)
         else raise (HTTPException 400
                       (Text ("Path is not a file or directory: " +:+ dp_path data))))
    (λ e, if is_PermissionError e
          then raise (HTTPException 403
                        (Text ("Permission denied to delete " +:+ dp_path data)))
          else raise (HTTPException 500
                        (Text ("Failed to delete " +:+ dp_path data +:+ ": " +:+ exn_str e)))).

(** [delete_path]. [t_load] and [t_now] are the two readings of the
    clock, the first inside [load_confirmations]; [entropy] is what
    [secrets] draws when a token is issued. *)
Definition delete_path (t_load t_now : Z) (entropy : N * N * N)
    (data : DeletePathRequest) : M response :=
  let* pending_confirmations := load_confirmations t_load in
  let* path := normalize_path (dp_path data) in
  let now := t_now in
  match supplied_token data with
  | Some token =>
      match pending_confirmations !! token with
      | None =>
          raise (HTTPException 400 (Text "Invalid or expired confirmation token."))
      | Some confirmation_data =>
          if now >? c_expiry confirmation_data then
            save_confirmations (delete token pending_confirmations) ;>
            raise (HTTPException 400 (Text "Confirmation token has expired."))
          else if negb (String.eqb (c_path confirmation_data) (dp_path data))
                  || negb (Bool.eqb (c_recursive confirmation_data) (dp_recursive data))
          then
            raise (HTTPException 400
                     (Text "Request parameters (path, recursive) do not match the original request for this token."))
          else
            save_confirmations (delete token pending_confirmations) ;>
            perform_delete data path
      end
  | None =>
      let* present := Host.exists_ path in
      if negb present
      then raise (HTTPException 404 (Text ("Path not found: " +:+ dp_path data)))
      else
        let token := new_token entropy in
        let expiry_time := now + timedelta_seconds CONFIRMATION_TTL_SECONDS in
        save_confirmations
          (<[token := Confirmation (dp_path data) (dp_recursive data) expiry_time]>
             pending_confirmations) ;>
        let confirmation_message :=
          "`Confirm deletion of file: " +:+ dp_path data +:+ " with token "
          +:+ token +:+ "`" in
        ret (ConfirmationRequiredResponse confirmation_message token expiry_time)
  end.

Definition move_path (data : MovePathRequest) : M response :=
  let* source := normalize_path (mv_source_path data) in
  let* destination := normalize_path (mv_destination_path data) in
  try_except
    (let* present := Host.exists_ source in
     if negb present
     then raise (HTTPException 404
                   (Text ("Source path not found: " +:+ mv_source_path data)))
     else
       tell (EvMove source destination) ;>
       check_permission source ;>
       check_permission destination ;>
       lift_fs (λ n, shutil_move n source destination) ;>
       ret (SuccessResponse ("Successfully moved '" +:+ mv_source_path data
                             +:+ "' to '" +:+ mv_destination_path data +:+ "'")))
    (λ e, if is_PermissionError e
          then raise (HTTPException 403
                        (Text ("Permission denied for move operation involving '"
                               +:+ mv_source_path data +:+ "' or '"
                               +:+ mv_destination_path data +:+ "'")))
          else raise (HTTPException 500
                        (Text ("Failed to move '" +:+ mv_source_path data +:+ "' to '"
                               +:+ mv_destination_path data +:+ "': " +:+ exn_str e)))).

Definition get_metadata (path : string) : M response :=
  let* p := normalize_path path in
  try_except
    (let* present := Host.exists_ p in
     if negb present
     then raise (HTTPException 404 (Text ("Path not found: " +:+ path)))
     else
       tell (EvStat p) ;>
       check_permission p ;>
       let* w := get_world in
       let* st := lift_result (os_stat (fs w) p) in
       let* isf := Host.is_file p in
       let* file_type :=
         if isf then ret "file"
         else let* isd := Host.is_dir p in
              ret (if isd then "directory" else "other") in
       ret (MetadataResponse
              {| md_path := path_str p;
                 md_type := file_type;
                 md_size_bytes := st_size st;
                 md_modification_time_utc := iso_utc (st_mtime st);
                 md_creation_time_utc :=
                   iso_utc (default (st_ctime st) (st_birthtime st));
                 md_last_metadata_change_time_utc := iso_utc (st_ctime st) |}))
    (λ e, if is_PermissionError e
          then raise (HTTPException 403
                        (Text ("Permission denied to access metadata for " +:+ path)))
          else raise (HTTPException 500
                        (Text ("Failed to get metadata for " +:+ path +:+ ": " +:+ exn_str e)))).

Definition list_allowed_directories : M response :=
  ret (AllowedDirectoriesResponse ALLOWED_DIRECTORIES).

(** *** The public operations ([main.py] registers the three routers) *)

Inductive request :=
| ReadFile (path : string)
| WriteFile (data : WriteFileRequest)
| EditFile (data : EditFileRequest)
| CreateDirectory (path : string)
| ListDirectory (path : string)
| DirectoryTreeOf (path : string)
| SearchFiles (data : SearchFilesRequest)
| SearchContent (data : SearchContentRequest)
| DeletePath (t_load t_now : Z) (entropy : N * N * N) (data : DeletePathRequest)
| MovePath (data : MovePathRequest)
| GetMetadata (path : string)
| ListAllowedDirectories.

Definition handle (r : request) : M response :=
  match r with
  | ReadFile path => read_file path
  | WriteFile data => write_file data
  | EditFile data => edit_file data
  | CreateDirectory path => create_directory path
  | ListDirectory path => list_directory path
  | DirectoryTreeOf path => directory_tree path
  | SearchFiles data => search_files data
  | SearchContent data => search_content data
  | DeletePath t_load t_now entropy data => delete_path t_load t_now entropy data
  | MovePath data => move_path data
  | GetMetadata path => get_metadata path
  | ListAllowedDirectories => list_allowed_directories
  end.

(** The path strings a request hands to [normalize_path], in order. *)
Definition guarded_paths (r : request) : list string :=
  match r with
  | ReadFile path | CreateDirectory path | ListDirectory path
  | DirectoryTreeOf path | GetMetadata path => [path]
  | WriteFile data => [wf_path data]
  | EditFile data => [ef_path data]
  | SearchFiles data => [sf_path data]
  | SearchContent data => [sc_path data]
  | DeletePath _ _ _ data => [dp_path data]
  | MovePath data => [mv_source_path data; mv_destination_path data]
  | ListAllowedDirectories => []
  end.

(** The guard's verdict on a path string, without the monad. *)
Definition accepted (requested_path : string) : bool :=
  existsb (λ allowed,
             PyStr.startswith (lower (path_str (resolve requested_path))) (lower allowed))
    ALLOWED_DIRECTORIES.

Definition denial (requested_path : string) : exn :=
  HTTPException 403
    (Denied "Access Denied" (path_str (resolve requested_path))
       "Requested path is outside allowed directories." ALLOWED_DIRECTORIES).

End Server.

(** ** Vocabulary of the statements *)

(** What the loop of [load_confirmations] does with one entry. *)
Definition keep (now : Z) (details : raw_entry) : option confirmation :=
  match details with
  | Stored c => if c_expiry c >? now then Some c else None
  | Broken _ => None
  end.

(** The outcome of [load_confirmations] on each content of the file. *)
Definition load_outcome (now : Z) (s : snapshot_file) : exn + gmap string confirmation :=
  match s with
  | Missing | Unreadable | Malformed => inr ∅
  | Snapshot data => inr (map_fold (load_entry now) ∅ data)
  | Unexpected e =>
      match e with
      | JSONDecodeError _ => inr ∅
      | _ => if is_OSError e then inr ∅ else inl e
      end
  end.

Definition load_events (s : snapshot_file) : list event :=
  match s with
  | Missing => [EvStatConf]
  | _ => [EvStatConf; EvReadConf]
  end.

Definition add_logs (evs : list event) (w : world) : world :=
  World (fs w) (refused w) (conf_file w) (conf_writable w) (io_log w ++ evs).

(** What [Path.read_text] makes of the content of a file: the text, or
    the [UnicodeDecodeError]. *)
Definition as_text (decode : string → decoding) (content : string) : exn + string :=
  match decode content with
  | Decoded text => inr (PyStr.universal_newlines text)
  | Undecodable reason => inl (ValueError reason)
  end.

(** The snapshot can be loaded: the body of [load_confirmations] raises
    nothing it does not catch. *)
Definition loadable (s : snapshot_file) : bool :=
  match load_outcome 0 s with
  | inr _ => true
  | inl _ => false
  end.


(** A computation whose runs relate the state before to the state after
    by [R]. *)
Definition preserves (R : relation world) {A} (m : M A) : Prop :=
  ∀ w, R w (snd (m w)).

(** The snapshot file is as before. *)
Definition same_conf : relation world :=
  λ w w', conf_file w' = conf_file w.

(** The access log has only been added to. *)
Definition log_grows : relation world :=
  λ w w', ∃ evs, io_log w' = io_log w ++ evs.

(** A relation that every access to the file system respects. *)
Class Frame (R : relation world) := {
  frame_refl w : R w w;
  frame_trans w1 w2 w3 : R w1 w2 → R w2 w3 → R w1 w3;
  frame_log e w : R w (add_log e w);
  frame_fs n w : R w (set_fs n w)
}.

(** The paths of a request that the guard gets to see: up to the first
    one it denies. *)
Fixpoint checked `{Platform} (paths : list string) : list string :=
  match paths with
  | [] => []
  | p :: rest => p :: (if accepted p then checked rest else [])
  end.

Definition guard_events `{Platform} (r : request) : list event :=
  map EvResolve (checked (guarded_paths r)).

(** The first path of a request that the guard turns down. *)
Definition first_denied `{Platform} (r : request) : option string :=
  List.find (λ p, negb (accepted p)) (guarded_paths r).

Definition is_delete (r : request) : bool :=
  match r with
  | DeletePath _ _ _ _ => true
  | _ => false
  end.

(** The edit of the specification, in its words: each pair in turn
    rewrites the first occurrence of its [oldText] in the text as it
    stands at that step. *)
Inductive applies : list EditOperation → string → string → Prop :=
| applies_nil s : applies [] s s
| applies_cons edit rest s pre post s' :
    PyStr.first_occurrence (oldText edit) s pre post →
    applies rest (pre +:+ newText edit +:+ post) s' →
    applies (edit :: rest) s s'.

(** Some pair finds its [oldText] absent from the text as it stands when
    its turn comes. *)
Definition stuck (edits : list EditOperation) (s : string) : Prop :=
  ∃ done edit rest mid,
    edits = done ++ edit :: rest ∧ applies done s mid ∧
    PyStr.contains (oldText edit) mid = false.

(** Case-sensitive confinement: the text starts with an allowed
    directory exactly as it is configured. *)
Definition under_allowed `{Platform} (r : string) : Prop :=
  ∃ alt rest, alt ∈ ALLOWED_DIRECTORIES ∧ r = alt +:+ rest.

(** [results or ["No matches found"]] *)
Definition or_placeholder (results : list string) : list string :=
  match results with
  | [] => ["No matches found"]
  | _ => results
  end.

(** The guard comes first: what a request has done to the host by the
    time the guard has seen its paths, and where it stands when the guard
    denies one. *)
Definition guard_first `{Platform} (r : request) (w : world) : Prop :=
  let run := handle r w in
  let loaded := negb (is_delete r) || loadable (conf_file w) in
  let pre := if is_delete r then load_events (conf_file w) else [] in
  let guard := if loaded then guard_events r else [] in
  Forall (λ e, is_stat e = true ∨ e = EvReadConf) pre
  ∧ Forall (λ e, is_stat e = true) guard
  ∧ (∃ rest, io_log (snd run) = io_log w ++ pre ++ guard ++ rest
             ∧ (is_Some (first_denied r) → rest = []))
  ∧ (∀ p, first_denied r = Some p →
          fs (snd run) = fs w
          ∧ conf_file (snd run) = conf_file w
          ∧ (loaded = true → fst run = inl (denial p))).

(** The file system and the snapshot file are as before. *)
Definition same_disk : relation world :=
  λ w w', fs w' = fs w ∧ conf_file w' = conf_file w.

(** The requests whose handlers only look. *)
Definition is_read_only (r : request) : bool :=
  match r with
  | ReadFile _ | ListDirectory _ | DirectoryTreeOf _ | SearchFiles _
  | SearchContent _ | GetMetadata _ | ListAllowedDirectories => true
  | _ => false
  end.



(** A relation that reading the host respects: it holds of a state and
    itself, it composes, and it ignores the access log. *)
Class ReadFrame (R : relation world) := {
  read_refl w : R w w;
  read_trans w1 w2 w3 : R w1 w2 → R w2 w3 → R w1 w3;
  read_log e w : R w (add_log e w)
}.

(** The value of a hexadecimal digit as [hex_digit] writes it. *)
Definition hex_value (c : ascii) : N :=
  match c with
  | "0" => 0 | "1" => 1 | "2" => 2 | "3" => 3 | "4" => 4 | "5" => 5 | "6" => 6
  | "7" => 7 | "8" => 8 | "9" => 9 | "a" => 10 | "b" => 11 | "c" => 12
  | "d" => 13 | "e" => 14 | _ => 15
  end%char%N.

(** ** A platform to run the handlers on *)

Module Demo.

Definition lower_ascii (c : ascii) : ascii :=
  let n := N_of_ascii c in
  if ((65 <=? n) && (n <=? 90))%N then ascii_of_N (n + 32) else c.

(** [str.lower] on ASCII text. *)
Fixpoint ascii_lower (s : string) : string :=
  match s with
  | EmptyString => EmptyString
  | String c s' => String (lower_ascii c) (ascii_lower s')
  end.

(** The components of a path string, split at ["/"]. *)
Fixpoint components (current : string) (s : string) : list string :=
  match s with
  | EmptyString => match current with EmptyString => [] | _ => [current] end
  | String c s' =>
      if Ascii.eqb c "/"
      then match current with
           | EmptyString => components EmptyString s'
           | _ => current :: components EmptyString s'
           end
      else components (current +:+ String c EmptyString) s'
  end.

(** Resolution of an absolute path string that has no [..], no [~] and
    no symbolic link on it. *)
Definition plain_resolve (s : string) : Path := components EmptyString s.

(** [Path.match] for a pattern that is one literal name: it is compared
    with the last component. *)
Definition name_match (p : Path) (pattern : string) : exn + bool :=
  match pattern with
  | EmptyString => inl (ValueError "empty pattern")
  | _ => inr (match last p with
              | Some name => String.eqb name pattern
              | None => false
              end)
  end.

(** [splitlines(keepends=True)] for text whose only line break is the
    line feed. *)
Fixpoint lines_keepends (current : string) (s : string) : list string :=
  match s with
  | EmptyString => match current with EmptyString => [] | _ => [current] end
  | String c s' =>
      if Ascii.eqb c "010"
      then (current +:+ String c EmptyString) :: lines_keepends EmptyString s'
      else lines_keepends (current +:+ String c EmptyString) s'
  end.

(** [difflib.unified_diff] when both texts have one line. *)
Definition one_line_diff (a b : list string) (fromfile tofile : string) : list string :=
  if decide (a = b) then []
  else [ "--- " +:+ fromfile +:+ String "010" EmptyString;
         "+++ " +:+ tofile +:+ String "010" EmptyString;
         "@@ -1 +1 @@" +:+ String "010" EmptyString ]
       ++ map (String "-") a ++ map (String "+") b.

(** The bytes of [s] from a point where [need] more bytes of a character
    are due, the next of them between [lo] and [hi]: the well-formed
    sequences of UTF-8. *)
Fixpoint utf8_from (need : nat) (lo hi : N) (s : string) : bool :=
  match s with
  | EmptyString => match need with O => true | S _ => false end
  | String c s' =>
      let b := N_of_ascii c in
      match need with
      | O =>
          if (b <? 128)%N then utf8_from 0 128 191 s'
          else if ((194 <=? b) && (b <=? 223))%N then utf8_from 1 128 191 s'
          else if (b =? 224)%N then utf8_from 2 160 191 s'
          else if (b =? 237)%N then utf8_from 2 128 159 s'
          else if ((225 <=? b) && (b <=? 239))%N then utf8_from 2 128 191 s'
          else if (b =? 240)%N then utf8_from 3 144 191 s'
          else if ((241 <=? b) && (b <=? 243))%N then utf8_from 3 128 191 s'
          else if (b =? 244)%N then utf8_from 3 128 143 s'
          else false
      | S need' => ((lo <=? b) && (b <=? hi))%N && utf8_from need' 128 191 s'
      end
  end.

(** Decoding, with text kept as the bytes of its UTF-8 form. *)
Definition utf8 (content : string) : decoding :=
  if utf8_from 0 128 191 content then Decoded content
  else Undecodable "'utf-8' codec can't decode bytes".

(** The lines of a file whose content is ASCII. *)
Definition text_lines (content : string) : list string :=
  lines_keepends EmptyString (PyStr.universal_newlines content).

(** The remaining library functions are not exercised by the examples. *)
Definition platform (allowed : list string) : Platform := {|
  ALLOWED_DIRECTORIES := allowed;
  resolve := plain_resolve;
  lower := ascii_lower;
  path_match := name_match;
  unified_diff := one_line_diff;
  splitlines := lines_keepends EmptyString;
  decode_utf8 := utf8;
  py_glob := λ _ _ _ _, inr [];
  file_lines := text_lines;
  strip := λ s, s;
  shutil_move := λ _ _ _, inl (OSError "not supported");
  os_stat := λ _ _, inl (OSError "not supported");
  iso_utc := pretty
|}.

Definition quiet (n : node) (s : snapshot_file) : world :=
  {| fs := n; refused := λ _, false; conf_file := s;
     conf_writable := true; io_log := [] |}.

(** [/root/a.txt] and [/root/sub/a.log] *)
Definition small_tree : node :=
  Dir [("root", Dir [("a.txt", File "alpha"); ("sub", Dir [("a.log", File "beta")])])].

(** [/root/a.txt] and [/root/sub/deep/a.log] *)
Definition deep_tree : node :=
  Dir [("root", Dir [("a.txt", File "alpha");
                     ("sub", Dir [("deep", Dir [("a.log", File "beta")])])])].

(** [/data/a.txt] and the non-empty directory [/data/d] *)
Definition data_tree : node :=
  Dir [("data", Dir [("a.txt", File "foo baz foo"); ("b.txt", File "other");
                     ("d", Dir [("x", File "")])])].

Definition data_platform : Platform := platform ["/data"].
Definition root_platform : Platform := platform ["/root"].

(** A platform whose allowed directory is spelled [/Root]. *)
Definition capital_platform : Platform := platform ["/Root"].

Definition a_txt (token : option string) : DeletePathRequest :=
  {| dp_path := "/data/a.txt"; dp_recursive := false; dp_confirmation_token := token |}.


Definition passwd : DeletePathRequest :=
  {| dp_path := "/etc/passwd"; dp_recursive := false; dp_confirmation_token := None |}.

(** Three bytes that make the token ["abcde"]. *)
Definition abcdef : N * N * N := (171, 205, 239)%N.

Definition second : Z := 1000000.

Definition foo_to_bar (dry : bool) : EditFileRequest :=
  {| ef_path := "/data/a.txt";
     ef_edits := [{| oldText := "foo"; newText := "bar" |}];
     ef_dryRun := dry |}.

Definition qux_to_bar : EditFileRequest :=
  {| ef_path := "/data/a.txt";
     ef_edits := [{| oldText := "foo"; newText := "bar" |};
                  {| oldText := "qux"; newText := "bar" |}];
     ef_dryRun := false |}.

Definition search_a (exclude : list string) : SearchFilesRequest :=
  {| sf_path := "/root"; sf_pattern := "a."; sf_excludePatterns := Some exclude |}.

(** A glob that yields every entry of the directory, as the pattern [*]
    does when the search is not recursive. *)
Definition star_glob (recursive : bool) (pattern : option string) (n : node)
    (base : Path) : exn + list Path :=
  match FS.lookup n base with
  | Some (Dir es) => inr (map (λ e, base ++ [fst e]) es)
  | _ => inr []
  end.

(** [data_platform] with that glob. *)
Definition glob_platform : Platform := {|
  ALLOWED_DIRECTORIES := ["/data"];
  resolve := plain_resolve;
  lower := ascii_lower;
  path_match := name_match;
  unified_diff := one_line_diff;
  splitlines := lines_keepends EmptyString;
  decode_utf8 := utf8;
  py_glob := star_glob;
  file_lines := text_lines;
  strip := λ s, s;
  shutil_move := λ _ _ _, inl (OSError "not supported");
  os_stat := λ _ _, inl (OSError "not supported");
  iso_utc := pretty
|}.

(** A host on which the snapshot cannot be written. *)
Definition sealed (n : node) (s : snapshot_file) : world :=
  {| fs := n; refused := λ _, false; conf_file := s;
     conf_writable := false; io_log := [] |}.

(** The confirmation of a deletion of [path] that expires after a minute. *)
Definition minute (path : string) (recursive : bool) : confirmation :=
  Confirmation path recursive (60 * second).

(** A snapshot with one entry that is live at the first second, one
    that has expired and one that cannot be read. *)
Definition mixed_snapshot : gmap string raw_entry :=
  {[ "11111" := Stored (minute "/data/b.txt" false);
     "22222" := Stored (Confirmation "/data/b.txt" false 0);
     "33333" := Broken ExpiryNaive ]}.

Definition d_dir (recursive : bool) (token : option string) : DeletePathRequest :=
  {| dp_path := "/data/d"; dp_recursive := recursive; dp_confirmation_token := token |}.

Definition gone (token : option string) : DeletePathRequest :=
  {| dp_path := "/data/gone"; dp_recursive := false; dp_confirmation_token := token |}.

Definition write_a : WriteFileRequest :=
  {| wf_path := "/data/a.txt"; wf_content := "fresh" |}.

Definition search_x (exclude : option (list string)) : SearchFilesRequest :=
  {| sf_path := "/data"; sf_pattern := "X"; sf_excludePatterns := exclude |}.

Definition grep_foo (path : string) : SearchContentRequest :=
  {| sc_path := path; sc_search_query := "FOO"; sc_recursive := false;
     sc_file_pattern := Some "*" |}.


(** A snapshot file whose bytes are not text: reading it raises a
    [UnicodeDecodeError], which is a [ValueError]. *)
Definition not_text : snapshot_file :=
  Unexpected (ValueError "'utf-8' codec can't decode byte 0xff in position 0: invalid start byte").

(** A snapshot file that holds the JSON array [[]], which has no
    [items]. *)
Definition json_array : snapshot_file :=
  Unexpected (AttributeError "'list' object has no attribute 'items'").

(** A host that denies permission on the one path [p]. *)
Definition shut (p : Path) (n : node) : world :=
  {| fs := n; refused := λ q, bool_decide (q = p); conf_file := Missing;
     conf_writable := true; io_log := [] |}.

(** ["a\r\nb\rc"] and, as a read in text mode gives it, ["a\nb\nc"] *)
Definition with_returns : string :=
  String "a" (String "013" (String "010" (String "b" (String "013" (String "c" EmptyString))))).

Definition with_feeds : string :=
  String "a" (String "010" (String "b" (String "010" (String "c" EmptyString)))).

Definition write_returns : WriteFileRequest :=
  {| wf_path := "/data/a.txt"; wf_content := with_returns |}.

(** [/data/a.txt] and [/data/raw], whose one byte [FF] is not UTF-8 *)
Definition raw_tree : node :=
  Dir [("data", Dir [("a.txt", File "foo baz foo");
                     ("raw", File (String "255" EmptyString))])].


End Demo.

(** * Properties *)

(** ** Strings *)

Module PyStrFacts.
Import PyStr.

Lemma app_cons c s t : String c s +:+ t = String c (s +:+ t).
Proof. reflexivity. Qed.

Lemma app_empty t : EmptyString +:+ t = t.
Proof. reflexivity. Qed.

Ltac norm := rewrite ?app_cons, ?app_empty in *.

Lemma startswith_spec s p :
  startswith s p = true ↔ ∃ rest, s = p +:+ rest.
Proof.
  revert s; induction p as [|a p IH]; intros s; simpl.
  - split; [intros _; by exists s | done].
  - destruct s as [|b s]; simpl.
    + split; [done | intros [rest Hr]; discriminate].
    + destruct (Ascii.eqb_spec a b) as [->|Hne].
      * rewrite IH. split; intros [rest Hr]; exists rest; norm; congruence.
      * split; [done | intros [rest Hr]; norm; congruence].
Qed.

Lemma startswith_app p rest : startswith (p +:+ rest) p = true.
Proof. apply startswith_spec; by exists rest. Qed.

Lemma drop_app p rest : drop (String.length p) (p +:+ rest) = rest.
Proof. induction p; norm; simpl; auto. Qed.

Lemma contains_spec sub s :
  contains sub s = true ↔ ∃ pre post, s = pre +:+ sub +:+ post.
Proof.
  induction s as [|c s IH]; simpl.
  - rewrite orb_false_r, startswith_spec. split.
    + intros [rest Hr]. by exists EmptyString, rest.
    + intros (pre & post & Hs). destruct pre; norm; [by exists post | discriminate].
  - rewrite orb_true_iff, startswith_spec, IH. split.
    + intros [[rest Hr] | (pre & post & Hs)].
      * by exists EmptyString, rest.
      * exists (String c pre), post. norm. congruence.
    + intros (pre & post & Hs). destruct pre as [|c' pre]; norm.
      * left. by exists post.
      * right. exists pre, post. congruence.
Qed.

(** [replace(old, new, 1)] rewrites the leftmost occurrence and only it. *)
Lemma replace_first_spec old new s pre post :
  first_occurrence old s pre post →
  replace_first old new s = pre +:+ new +:+ post.
Proof.
  revert s; induction pre as [|c pre IH]; intros s [Hs Hmin].
  - norm. subst s.
    destruct (old +:+ post) eqn:E; simpl;
      rewrite <- E, startswith_app, drop_app; done.
  - norm. subst s. simpl.
    destruct (startswith (String c (pre +:+ old +:+ post)) old) eqn:E.
    + apply startswith_spec in E as [rest Hr].
      specialize (Hmin EmptyString rest Hr). simpl in Hmin. lia.
    + f_equal. apply IH. split; [done|].
      intros pre' post' Hs'.
      specialize (Hmin (String c pre') post'). norm.
      rewrite Hs' in Hmin. specialize (Hmin eq_refl). simpl in Hmin. lia.
Qed.

(** A text that contains [old] has a leftmost occurrence of it. *)
Lemma contains_first_occurrence old s :
  contains old s = true → ∃ pre post, first_occurrence old s pre post.
Proof.
  induction s as [|c s IH]; simpl; intros Hc.
  - rewrite orb_false_r in Hc. apply startswith_spec in Hc as [rest Hr].
    exists EmptyString, rest. split; [done | simpl; lia].
  - destruct (startswith (String c s) old) eqn:E.
    + apply startswith_spec in E as [rest Hr].
      exists EmptyString, rest. split; [done | simpl; lia].
    + simpl in Hc. destruct (IH Hc) as (pre & post & Hs & Hmin).
      exists (String c pre), post. split; [norm; congruence|].
      intros pre' post' Hs'. destruct pre' as [|c' pre']; norm.
      * assert (startswith (String c s) old = true) as Hcontra
          by (apply startswith_spec; by exists post').
        congruence.
      * simpl. injection Hs' as -> Hs'. specialize (Hmin _ _ Hs'). lia.
Qed.

Lemma replace_first_absent old new s :
  contains old s = false → replace_first old new s = s.
Proof.
  induction s as [|c s IH]; simpl; intros Hc; apply orb_false_elim in Hc as [H1 H2].
  - by rewrite H1.
  - rewrite H1. f_equal. auto.
Qed.

End PyStrFacts.

(** ** Running the monad *)

Section Runs.

Context `{Platform}.

Lemma add_logs_add_log e evs w : add_log e (add_logs evs w) = add_logs (evs ++ [e]) w.
Proof. unfold add_log, add_logs; simpl. by rewrite <- app_assoc. Qed.

Lemma add_log_add_logs e w : add_log e w = add_logs [e] w.
Proof. reflexivity. Qed.

Lemma add_logs_add_logs a b w : add_logs b (add_logs a w) = add_logs (a ++ b) w.
Proof. unfold add_logs; simpl. by rewrite <- app_assoc. Qed.

Lemma normalize_path_run P w :
  normalize_path P w =
  (if accepted P then inr (resolve P) else inl (denial P), add_logs [EvResolve P] w).
Proof.
  unfold normalize_path, accepted, denial, bind, tell, ret, raise.
  by destruct (existsb _ _).
Qed.

Lemma accepted_spec P :
  accepted P = true ↔
  ∃ allowed rest, allowed ∈ ALLOWED_DIRECTORIES ∧
                  lower (path_str (resolve P)) = lower allowed +:+ rest.
Proof.
  unfold accepted. rewrite existsb_exists. split.
  - intros (allowed & Hin & Hs). apply PyStrFacts.startswith_spec in Hs as [rest Hr].
    exists allowed, rest. by rewrite list_elem_of_In.
  - intros (allowed & rest & Hin & Hs). exists allowed. rewrite <- list_elem_of_In.
    split; [done|]. apply PyStrFacts.startswith_spec. by exists rest.
Qed.

Lemma load_loop_lookup now (data : gmap string raw_entry) token :
  map_fold (load_entry now) ∅ data !! token = data !! token ≫= keep now.
Proof.
  revert token.
  apply (map_fold_weak_ind
           (λ r (m : gmap string raw_entry), ∀ token, r !! token = m !! token ≫= keep now)).
  - intros token. by rewrite !lookup_empty.
  - intros i x m r Hi IH token. unfold load_entry.
    destruct (decide (i = token)) as [->|Hne].
    + rewrite lookup_insert_eq. simpl.
      destruct x as [c|why]; simpl.
      * destruct (c_expiry c >? now); [by rewrite lookup_insert_eq|].
        by rewrite IH, Hi.
      * by rewrite IH, Hi.
    + rewrite (lookup_insert_ne m) by done. rewrite <- IH.
      destruct x as [c|why]; [|done].
      destruct (c_expiry c >? now); [by rewrite lookup_insert_ne | done].
Qed.

Lemma load_confirmations_run now w :
  load_confirmations now w =
  (load_outcome now (conf_file w), add_logs (load_events (conf_file w)) w).
Proof.
  unfold load_confirmations, bind, try_except, Host.conf_exists, Host.conf_load,
    tell, get_world, ret, raise, bind.
  destruct w as [n rf cf cw lg]; simpl.
  destruct cf as [| | |data|e]; simpl; try reflexivity;
    unfold add_logs, add_log; simpl; rewrite <- ?app_assoc; simpl; try reflexivity.
  destruct e; simpl; reflexivity.
Qed.


Lemma save_confirmations_run m w :
  save_confirmations m w =
  (inr tt,
   if conf_writable w
   then set_conf_file (Snapshot (Stored <$> m)) (add_logs [EvWriteConf] w)
   else add_logs [EvWriteConf] w).
Proof.
  unfold save_confirmations, try_except, Host.conf_dump, bind, tell, get_world, raise.
  destruct w as [n rf cf cw lg]; simpl. by destruct cw.
Qed.

Lemma loadable_outcome now s :
  loadable s = true → ∃ pending, load_outcome now s = inr pending.
Proof.
  unfold loadable. destruct s as [| | |data|e]; simpl; eauto.
  destruct e; simpl; eauto; discriminate.
Qed.

Lemma load_outcome_lookup now s pending token c :
  load_outcome now s = inr pending →
  pending !! token = Some c →
  ∃ data, s = Snapshot data ∧ data !! token = Some (Stored c) ∧ now < c_expiry c.
Proof.
  destruct s as [| | |data|e]; simpl; intros Hl Hp.
  1-3: by (injection Hl as <-; rewrite lookup_empty in Hp).
  - injection Hl as <-. rewrite load_loop_lookup in Hp.
    exists data. split; [done|].
    destruct (data !! token) as [[c'|why]|]; simpl in Hp; try done.
    destruct (c_expiry c' >? now) eqn:E; [|done].
    injection Hp as ->. split; [done | lia].
  - exfalso. destruct e; simpl in Hl; try discriminate;
      injection Hl as <-; by rewrite lookup_empty in Hp.
Qed.

End Runs.

(** ** The path guard *)

Section PathGuard.

Context `{Platform}.

(** C3. [normalize_path] accepts a path string exactly when the
    lower-cased text of its resolved form starts with the lower-cased
    text of some allowed directory, and it then returns the resolved
    path; otherwise it raises the 403 whose body carries the resolved
    path, the whole list of allowed directories and the fixed message. *)
Theorem normalize_path_accepts_iff (P : string) (w : world) :
  let resolved := path_str (resolve P) in
  let under_root :=
    ∃ allowed rest, allowed ∈ ALLOWED_DIRECTORIES ∧
                    lower resolved = lower allowed +:+ rest in
  ((∃ p, fst (normalize_path P w) = inr p) ↔ under_root) ∧
  (under_root → fst (normalize_path P w) = inr (resolve P)) ∧
  (¬ under_root →
   fst (normalize_path P w) =
   inl (HTTPException 403
          (Denied "Access Denied" resolved
             "Requested path is outside allowed directories."
             ALLOWED_DIRECTORIES))
   ∧ kind_of_status 403 = AccessDenied).
Proof.
  intros resolved under_root. rewrite normalize_path_run. simpl.
  pose proof (accepted_spec P) as Hacc. fold resolved in Hacc. fold under_root in Hacc.
  destruct (accepted P).
  - split; [|split].
    + split; [intros _; by apply Hacc | eauto].
    + done.
    + intros Hn. exfalso. apply Hn. by apply Hacc.
  - split; [|split].
    + split; [intros [p Hp]; discriminate | intros Hu; apply Hacc in Hu; discriminate].
    + intros Hu. apply Hacc in Hu. discriminate.
    + done.
Qed.

End PathGuard.

(** ** The confirmation store *)

Section ConfirmationStore.

Context `{Platform}.

(** On a snapshot that holds a JSON object, [load_confirmations]
    returns exactly the entries whose expiry is strictly later than the
    clock reading; on a missing, unreadable or malformed file it
    returns the empty mapping. On content that makes its body raise, it
    returns the empty mapping for a [JSONDecodeError] or an [OSError] and
    raises anything else. It leaves the file system and the snapshot as
    they were. *)
Theorem load_confirmations_spec (now : Z) (w : world) :
  fs (snd (load_confirmations now w)) = fs w ∧
  conf_file (snd (load_confirmations now w)) = conf_file w ∧
  match conf_file w with
  | Snapshot data =>
      ∃ m, fst (load_confirmations now w) = inr m ∧
           ∀ token c, m !! token = Some c ↔
                      data !! token = Some (Stored c) ∧ now < c_expiry c
  | Missing | Unreadable | Malformed => fst (load_confirmations now w) = inr ∅
  | Unexpected e =>
      fst (load_confirmations now w) =
      match e with
      | JSONDecodeError _ => inr ∅
      | _ => if is_OSError e then inr ∅ else inl e
      end
  end.
Proof.
  rewrite load_confirmations_run. simpl. split; [done|]. split; [done|].
  destruct (conf_file w) as [| | |data|e]; simpl; try done.
  eexists. split; [done|]. intros token c. rewrite load_loop_lookup.
  destruct (data !! token) as [[c'|why]|]; simpl.
  - destruct (c_expiry c' >? now) eqn:E.
    + split; [intros [= ->]; split; [done | lia] | by intros [[= ->] _]].
    + split; [done | intros [[= ->] Hlt]; lia].
  - split; [done | by intros [? _]].
  - split; [done | by intros [? _]].
Qed.

End ConfirmationStore.

(** ** Trees *)

(** Induction over a tree, with the property at hand for every entry of
    a directory. *)
Lemma node_tree_ind (P : node → Prop) :
  (∀ content, P (File content)) →
  (∀ es, Forall (λ e, P (snd e)) es → P (Dir es)) →
  ∀ n, P n.
Proof.
  intros Hfile Hdir. fix IH 1. intros [content|es]; [apply Hfile|].
  apply Hdir. induction es as [|[name child] es IHes]; constructor; [apply IH | exact IHes].
Qed.

(** ** Host primitives *)

Section Frame.

Context {R : relation world} `{!Frame R} {A B : Type}.

Lemma preserves_ret (a : A) : preserves R (ret a).
Proof. intros w. apply frame_refl. Qed.

Lemma preserves_raise (e : exn) : preserves R (@raise A e).
Proof. intros w. apply frame_refl. Qed.

Lemma preserves_bind (m : M A) (k : A → M B) :
  preserves R m → (∀ a, preserves R (k a)) → preserves R (bind m k).
Proof.
  intros Hm Hk w. unfold bind. specialize (Hm w).
  destruct (m w) as [[e|a] w']; simpl in *; [done|].
  eapply frame_trans; [exact Hm | apply Hk].
Qed.

Lemma preserves_try (m : M A) (h : exn → M A) :
  preserves R m → (∀ e, preserves R (h e)) → preserves R (try_except m h).
Proof.
  intros Hm Hh w. unfold try_except. specialize (Hm w).
  destruct (m w) as [[e|a] w']; simpl in *; [|done].
  eapply frame_trans; [exact Hm | apply Hh].
Qed.

Lemma preserves_if (b : bool) (m1 m2 : M A) :
  preserves R m1 → preserves R m2 → preserves R (if b then m1 else m2).
Proof. by destruct b. Qed.

Lemma preserves_lift_result (r : exn + A) : preserves R (lift_result r).
Proof. destruct r; intros w; apply frame_refl. Qed.

Lemma preserves_tell ev : preserves R (tell ev).
Proof. intros w. apply frame_log. Qed.

Lemma preserves_get_world : preserves R get_world.
Proof. intros w. apply frame_refl. Qed.

Lemma preserves_lift_fs f : preserves R (lift_fs f).
Proof.
  intros w. unfold lift_fs. destruct (f (fs w)); [apply frame_refl | apply frame_fs].
Qed.

End Frame.

#[export] Instance same_conf_frame : Frame same_conf.
Proof. split; unfold same_conf; intros; simpl; congruence. Qed.

#[export] Instance log_grows_frame : Frame log_grows.
Proof.
  split; unfold log_grows.
  - intros w. exists []. by rewrite app_nil_r.
  - intros w1 w2 w3 [evs1 H1] [evs2 H2]. exists (evs1 ++ evs2).
    by rewrite H2, H1, app_assoc.
  - intros e w. by exists [e].
  - intros n w. exists []. by rewrite app_nil_r.
Qed.

(** One step of the decomposition of a handler into its primitives. *)
Ltac frame1 :=
  first
    [ apply preserves_ret | apply preserves_raise | apply preserves_tell
    | apply preserves_get_world | apply preserves_lift_fs | apply preserves_lift_result
    | apply preserves_bind; [|intros ?]
    | apply preserves_try; [|intros ?]
    | apply preserves_if
    | match goal with
      | |- preserves _ (match ?x with _ => _ end) => destruct x
      end ].

Ltac frame := repeat frame1.

Section HostFrame.

Context {R : relation world} `{!Frame R}.

Lemma preserves_check_permission p : preserves R (check_permission p).
Proof. unfold check_permission. frame. Qed.

Lemma preserves_exists p : preserves R (Host.exists_ p).
Proof. unfold Host.exists_. frame. Qed.

Lemma preserves_is_file p : preserves R (Host.is_file p).
Proof. unfold Host.is_file. frame. Qed.

Lemma preserves_is_dir p : preserves R (Host.is_dir p).
Proof. unfold Host.is_dir. frame. Qed.

Lemma preserves_open_read p : preserves R (Host.open_read p).
Proof. unfold Host.open_read, check_permission. frame. Qed.

Lemma preserves_read_text decode p : preserves R (Host.read_text decode p).
Proof. unfold Host.read_text, Host.open_read, check_permission. frame. Qed.

Lemma preserves_write_text p content : preserves R (Host.write_text p content).
Proof. unfold Host.write_text, check_permission. frame. Qed.

Lemma preserves_unlink p : preserves R (Host.unlink p).
Proof. unfold Host.unlink, check_permission. frame. Qed.

Lemma preserves_rmdir p : preserves R (Host.rmdir p).
Proof. unfold Host.rmdir, check_permission. frame. Qed.

Lemma preserves_rmtree p : preserves R (Host.rmtree p).
Proof. unfold Host.rmtree, check_permission. frame. Qed.

Lemma preserves_mkdir_p p : preserves R (Host.mkdir_p p).
Proof. unfold Host.mkdir_p, check_permission. frame. Qed.

Lemma preserves_iterdir p : preserves R (Host.iterdir p).
Proof. unfold Host.iterdir, check_permission. frame. Qed.

Lemma preserves_walk p : preserves R (Host.walk p).
Proof. unfold Host.walk. frame. Qed.

Lemma preserves_build_tree p n : preserves R (build_tree p n).
Proof.
  revert p. induction n as [content|es IH] using node_tree_ind; intros p.
  - simpl. unfold check_permission. frame.
  - cbn [build_tree].
    apply preserves_bind; [apply preserves_tell | intros _].
    apply preserves_bind; [apply preserves_check_permission | intros _].
    induction IH as [|[name item] rest Hitem _ IHrest]; [apply preserves_ret|].
    apply preserves_bind; [|intros children].
    + destruct (is_dir_node item); [|apply preserves_ret].
      apply preserves_bind; [apply Hitem | intros below; apply preserves_ret].
    + apply preserves_bind; [exact IHrest | intros more; apply preserves_ret].
Qed.

End HostFrame.

(** Decompose a handler into host primitives, and into what [known]
    settles. *)
Ltac frame_with known :=
  repeat first
    [ known
    | apply preserves_check_permission | apply preserves_exists | apply preserves_is_file
    | apply preserves_is_dir | apply preserves_open_read | apply preserves_read_text
    | apply preserves_build_tree | apply preserves_write_text
    | apply preserves_unlink | apply preserves_rmdir | apply preserves_rmtree
    | apply preserves_mkdir_p | apply preserves_iterdir | apply preserves_walk
    | frame1 ].

Ltac frame_host := frame_with fail.

Section HostRuns.

Lemma exists_run p w :
  Host.exists_ p w =
  (inr (bool_decide (is_Some (FS.lookup (fs w) p))), add_logs [EvStat p] w).
Proof. reflexivity. Qed.

Lemma is_file_run p w :
  Host.is_file p w =
  (inr (match FS.lookup (fs w) p with Some (File _) => true | _ => false end),
   add_logs [EvStat p] w).
Proof. reflexivity. Qed.

Lemma is_dir_run p w :
  Host.is_dir p w =
  (inr (match FS.lookup (fs w) p with Some (Dir _) => true | _ => false end),
   add_logs [EvStat p] w).
Proof. reflexivity. Qed.

Lemma open_read_run p w :
  Host.open_read p w =
  (if refused w p then inl (PermissionError "Permission denied")
   else match FS.lookup (fs w) p with
        | Some (File content) => inr content
        | Some (Dir _) => inl (OSError "Is a directory")
        | None => inl (FS.missing (fs w) p)
        end,
   add_logs [EvRead p] w).
Proof.
  unfold Host.open_read, check_permission, bind, tell, get_world, raise, ret,
    add_log, add_logs.
  destruct w as [n rf cf cw lg]; simpl.
  destruct (rf p); simpl; [done|]. by destruct (FS.lookup n p) as [[|]|].
Qed.

Lemma read_text_run decode p w :
  Host.read_text decode p w =
  (if refused w p then inl (PermissionError "Permission denied")
   else match FS.lookup (fs w) p with
        | Some (File content) => as_text decode content
        | Some (Dir _) => inl (OSError "Is a directory")
        | None => inl (FS.missing (fs w) p)
        end,
   add_logs [EvRead p] w).
Proof.
  unfold Host.read_text, bind, as_text. rewrite open_read_run.
  destruct (refused w p); [done|].
  destruct (FS.lookup (fs w) p) as [[content|es]|]; try done.
  by destruct (decode content).
Qed.

(** A host update of the tree, behind its log entry and permission
    check. *)
Lemma update_run (ev : event) (p : Path) (f : node → exn + node) w :
  (tell ev ;> check_permission p ;> lift_fs f) w =
  if refused w p then (inl (PermissionError "Permission denied"), add_logs [ev] w)
  else match f (fs w) with
       | inl e => (inl e, add_logs [ev] w)
       | inr n => (inr tt, set_fs n (add_logs [ev] w))
       end.
Proof.
  unfold check_permission, lift_fs, bind, tell, get_world, raise, ret,
    add_log, add_logs, set_fs.
  destruct w as [n rf cf cw lg]; simpl.
  destruct (rf p); simpl; [done|]. by destruct (f n).
Qed.





End HostRuns.

(** Projections of an updated world, and one step of a handler: the run
    of its next primitive. *)
Ltac fields :=
  cbn [fs refused conf_file conf_writable io_log add_logs set_fs set_conf_file
       fst snd negb].

Ltac step :=
  fields;
  first [ rewrite exists_run | rewrite is_file_run | rewrite is_dir_run
        | rewrite read_text_run | rewrite open_read_run | rewrite update_run
        | rewrite normalize_path_run | rewrite load_confirmations_run
        | rewrite save_confirmations_run ];
  fields.

(** ** The delete workflow *)

Section DeleteWorkflow.

Context `{Platform}.


Lemma perform_delete_frame data p (R : relation world) `{!Frame R} :
  preserves R (perform_delete data p).
Proof.
  unfold perform_delete. frame_host.
Qed.





(** The first step of the workflow: a request without token on an
    existing path stores a confirmation under a fresh token. *)
Lemma delete_path_issue t_load t_now entropy X R w pending :
  load_outcome t_load (conf_file w) = inr pending →
  conf_writable w = true →
  accepted X = true →
  is_Some (FS.lookup (fs w) (resolve X)) →
  let token := new_token entropy in
  let expiry_time := t_now + timedelta_seconds CONFIRMATION_TTL_SECONDS in
  delete_path t_load t_now entropy
    {| dp_path := X; dp_recursive := R; dp_confirmation_token := None |} w =
  (inr (ConfirmationRequiredResponse
          ("`Confirm deletion of file: " +:+ X +:+ " with token " +:+ token +:+ "`")
          token expiry_time),
   set_conf_file
     (Snapshot (Stored <$> <[token := Confirmation X R expiry_time]> pending))
     (add_logs (load_events (conf_file w)
                ++ [EvResolve X; EvStat (resolve X); EvWriteConf]) w)).
Proof.
  intros Hload Hw Hacc Hex token expiry_time.
  unfold delete_path, bind. step. rewrite Hload. cbn [dp_path].
  step. rewrite Hacc. cbn [supplied_token dp_confirmation_token dp_path dp_recursive].
  step. rewrite bool_decide_true by done. step. rewrite Hw.
  unfold ret, set_conf_file. fields. by rewrite <- !app_assoc.
Qed.

(** The second step: a request that presents a stored, unexpired token
    with the parameters it was issued for removes the token, saves, and
    goes on to the deletion. *)
Lemma delete_path_confirm t_load t_now entropy data w stored token cd :
  conf_file w = Snapshot stored →
  stored !! token = Some (Stored cd) →
  t_load < c_expiry cd →
  t_now ≤ c_expiry cd →
  supplied_token data = Some token →
  accepted (dp_path data) = true →
  c_path cd = dp_path data →
  c_recursive cd = dp_recursive data →
  conf_writable w = true →
  delete_path t_load t_now entropy data w =
  perform_delete data (resolve (dp_path data))
    (set_conf_file
       (Snapshot (Stored <$> delete token (map_fold (load_entry t_load) ∅ stored)))
       (add_logs [EvStatConf; EvReadConf; EvResolve (dp_path data); EvWriteConf] w)).
Proof.
  intros Hconf Hst Hload Hnow Htok Hacc Hp Hr Hw.
  unfold delete_path, bind. step. rewrite Hconf. cbn [load_outcome load_events].
  step. rewrite Hacc, Htok, load_loop_lookup, Hst. cbn [mbind option_bind keep].
  replace (c_expiry cd >? t_load) with true by lia.
  replace (t_now >? c_expiry cd) with false by lia.
  rewrite Hp, Hr, String.eqb_refl, eqb_reflx. cbn [negb orb].
  step. rewrite Hw. unfold set_conf_file. fields. by rewrite <- !app_assoc.
Qed.

(** The deletion never touches the snapshot, so a token that has been
    presented with the right parameters is gone whether or not the
    deletion succeeds. *)
Lemma perform_delete_same_conf data p w :
  conf_file (snd (perform_delete data p w)) = conf_file w.
Proof. apply (perform_delete_frame data p same_conf). Qed.

Lemma delete_path_consumes_token t_load t_now entropy data w stored token cd :
  conf_file w = Snapshot stored →
  stored !! token = Some (Stored cd) →
  t_load < c_expiry cd →
  t_now ≤ c_expiry cd →
  supplied_token data = Some token →
  accepted (dp_path data) = true →
  c_path cd = dp_path data →
  c_recursive cd = dp_recursive data →
  conf_writable w = true →
  ∃ left, conf_file (snd (delete_path t_load t_now entropy data w)) = Snapshot left
          ∧ left !! token = None.
Proof.
  intros Hconf Hst Hload Hnow Htok Hacc Hp Hr Hw.
  rewrite (delete_path_confirm _ _ _ _ _ _ _ _ Hconf Hst Hload Hnow Htok Hacc Hp Hr Hw).
  rewrite perform_delete_same_conf. eexists. split; [done|].
  by rewrite lookup_fmap, lookup_delete_eq.
Qed.



End DeleteWorkflow.

(** ** The guard comes first *)

Section GuardFirst.

Context `{Platform}.

Lemma load_events_io s :
  Forall (λ e, is_stat e = true ∨ e = EvReadConf) (load_events s).
Proof. destruct s; by repeat constructor. Qed.

Lemma load_events_read s : EvReadConf ∈ load_events s ↔ s ≠ Missing.
Proof.
  destruct s; simpl; (split; [intros Hin Heq | intros Hne]); try discriminate;
    try (rewrite !elem_of_cons; by auto).
  - apply elem_of_cons in Hin as [?|Hin]; [discriminate | by apply elem_of_nil in Hin].
Qed.

Lemma guard_events_stat r : Forall (λ e, is_stat e = true) (guard_events r).
Proof. unfold guard_events. apply Forall_fmap, Forall_true. done. Qed.

Lemma grows_save m : preserves log_grows (save_confirmations m).
Proof.
  intros w. rewrite save_confirmations_run. exists [EvWriteConf].
  by destruct (conf_writable w).
Qed.

Lemma grows_scan_files query items : preserves log_grows (scan_files query items).
Proof. induction items as [|item rest IH]; simpl; frame_with ltac:(exact IH). Qed.

Lemma grows_after {A} (m : M A) evs w :
  preserves log_grows m →
  ∃ rest, io_log (snd (m (add_logs evs w))) = io_log w ++ evs ++ rest.
Proof.
  intros Hm. destruct (Hm (add_logs evs w)) as [rest Hr].
  exists rest. rewrite Hr. cbn [io_log add_logs]. by rewrite <- app_assoc.
Qed.

Lemma bind_run {A B} (m : M A) (k : A → M B) w r w' :
  m w = (r, w') →
  bind m k w = match r with
               | inr a => k a w'
               | inl e => (inl e, w')
               end.
Proof. intros Hm. unfold bind. rewrite Hm. by destruct r. Qed.

Lemma guard_run {A} (k : Path → M A) path w :
  bind (normalize_path path) k w =
  if accepted path then k (resolve path) (add_logs [EvResolve path] w)
  else (inl (denial path), add_logs [EvResolve path] w).
Proof.
  rewrite (bind_run _ _ _ _ _ (normalize_path_run path w)).
  by destruct (accepted path).
Qed.

Lemma loadable_inl t s e : load_outcome t s = inl e → loadable s = false.
Proof.
  unfold loadable. destruct s as [| | |data|e']; simpl; try discriminate.
  destruct e'; simpl; intros; try discriminate; reflexivity.
Qed.

Lemma loadable_inr t s m : load_outcome t s = inr m → loadable s = true.
Proof.
  unfold loadable. destruct s as [| | |data|e']; simpl; try done.
  destruct e'; simpl; intros; try discriminate; reflexivity.
Qed.

(** What a handler does that starts with the guard and goes on with [k]. *)
Lemma guarded_handler {A} (k : Path → M A) path w :
  (∀ p, preserves log_grows (k p)) →
  let run := bind (normalize_path path) k w in
  (∃ rest, io_log (snd run) = io_log w ++ [EvResolve path] ++ rest
           ∧ (accepted path = false → rest = []))
  ∧ (accepted path = false → run = (inl (denial path), add_logs [EvResolve path] w)).
Proof.
  intros Hk run. subst run. unfold bind. step.
  destruct (accepted path) eqn:Hacc.
  - split; [|done]. destruct (grows_after (k (resolve path)) [EvResolve path] w (Hk _))
      as [rest Hr]. by exists rest.
  - split; [|done]. exists []. by rewrite app_nil_r.
Qed.

Lemma single_guard r path (k : Path → M response) w :
  is_delete r = false →
  guarded_paths r = [path] →
  handle r = bind (normalize_path path) k →
  (∀ p, preserves log_grows (k p)) →
  guard_first r w.
Proof.
  intros Hnd Hgp Hh Hk. unfold guard_first, guard_events, first_denied.
  rewrite Hnd, Hgp, Hh. cbn [negb orb checked find map].
  destruct (guarded_handler k path w Hk) as [(rest & Hlog & Hrest) Hden].
  replace (if accepted path then [] else []) with (@nil string)
    by (by destruct (accepted path)).
  cbn [map app].
  split; [constructor|]. split; [by repeat constructor|]. split.
  - exists rest. split; [done|].
    destruct (accepted path); cbn [negb]; [by intros [? ?] | auto].
  - intros p. destruct (accepted path); cbn [negb]; [done|]. intros [= <-].
    by rewrite Hden.
Qed.

(** C2, as the code has it. Before any other access to the host, every
    handler but [delete_path] hands its paths to the guard, whose only
    accesses are the stat calls of path resolution; [delete_path] first
    loads the confirmations, that is, it tests for the snapshot file and
    reads it when it exists. When the guard denies a path the handler
    stops there: it has written nothing, neither to the file system nor
    to the snapshot, and it answers with the denial. *)
Theorem guard_before_io (r : request) (w : world) :
  let run := handle r w in
  let loaded := negb (is_delete r) || loadable (conf_file w) in
  let pre := if is_delete r then load_events (conf_file w) else [] in
  let guard := if loaded then guard_events r else [] in
  Forall (λ e, is_stat e = true ∨ e = EvReadConf) pre
  ∧ Forall (λ e, is_stat e = true) guard
  ∧ (∃ rest, io_log (snd run) = io_log w ++ pre ++ guard ++ rest
             ∧ (is_Some (first_denied r) → rest = []))
  ∧ (∀ p, first_denied r = Some p →
          fs (snd run) = fs w
          ∧ conf_file (snd run) = conf_file w
          ∧ (loaded = true → fst run = inl (denial p))).
Proof.
  change (guard_first r w).
  destruct r.
  1-8,11: eapply single_guard; [reflexivity | reflexivity | reflexivity |];
          intros p; frame_with ltac:(apply grows_scan_files).
  - (* delete_path: the confirmations are loaded before the guard runs *)
    unfold guard_first. cbn [handle is_delete negb orb guarded_paths].
    unfold delete_path, guard_events, first_denied.
    cbn [guarded_paths checked find map].
    replace (if accepted (dp_path data) then [] else []) with (@nil string)
      by (by destruct (accepted (dp_path data))).
    cbn [map].
    rewrite (bind_run _ _ _ _ _ (load_confirmations_run t_load w)).
    split; [apply load_events_io|].
    destruct (load_outcome t_load (conf_file w)) as [e|pending] eqn:Hout.
    + rewrite (loadable_inl _ _ _ Hout). cbn [fst snd fs conf_file io_log add_logs].
      split; [constructor|]. split; [exists []; by rewrite !app_nil_r|]. done.
    + rewrite (loadable_inr _ _ _ Hout). split; [by repeat constructor|].
      match goal with
      | |- context [bind (normalize_path ?path) ?k _] =>
          destruct (guarded_handler k path (add_logs (load_events (conf_file w)) w))
            as [(rest & Hlog & Hrest) Hden]
      end.
      { intros p.
        frame_with ltac:(first [apply grows_save | apply perform_delete_frame, _]). }
      split.
      * exists rest. split.
        -- rewrite Hlog. cbn [io_log add_logs]. by rewrite <- !app_assoc.
        -- destruct (accepted (dp_path data)); cbn [negb]; [by intros [? ?] | auto].
      * intros p. destruct (accepted (dp_path data)); cbn [negb]; [done|].
        intros [= <-]. by rewrite Hden.
  - (* move_path: two paths go through the guard *)
    unfold guard_first. cbn [handle is_delete negb orb guarded_paths].
    unfold move_path, guard_events, first_denied.
    cbn [guarded_paths checked find map].
    replace (if accepted (mv_destination_path data) then [] else []) with (@nil string)
      by (by destruct (accepted (mv_destination_path data))).
    split; [constructor|].
    split; [by destruct (accepted (mv_source_path data)); repeat constructor|].
    rewrite guard_run.
    destruct (accepted (mv_source_path data)) eqn:Hsrc; cbn [negb map app].
    + match goal with
      | |- context [bind (normalize_path ?path) ?k _] =>
          destruct (guarded_handler k path (add_logs [EvResolve (mv_source_path data)] w))
            as [(rest & Hlog & Hrest) Hden]
      end.
      { intros p. frame_host. }
      split.
      * exists rest. split.
        -- rewrite Hlog. cbn [io_log add_logs]. by rewrite <- !app_assoc.
        -- destruct (accepted (mv_destination_path data)); cbn [negb];
             [by intros [? ?] | auto].
      * intros p. destruct (accepted (mv_destination_path data)); cbn [negb]; [done|].
        intros [= <-]. by rewrite Hden.
    + cbn [fst snd fs conf_file io_log add_logs].
      split; [by exists []|]. by intros p [= <-].
  - (* list_allowed_directories: no path, no access *)
    unfold guard_first. cbn. split; [constructor|]. split; [constructor|].
    split; [exists []; by rewrite app_nil_r | done].
Qed.

End GuardFirst.

(** ** Editing a file *)

Section Edit.

Context `{Platform}.

Lemma first_occurrence_rewrite old new s pre post pre' post' :
  PyStr.first_occurrence old s pre post →
  PyStr.first_occurrence old s pre' post' →
  pre +:+ new +:+ post = pre' +:+ new +:+ post'.
Proof.
  intros H1 H2.
  by rewrite <- (PyStrFacts.replace_first_spec _ new _ _ _ H1),
             (PyStrFacts.replace_first_spec _ new _ _ _ H2).
Qed.

(** The loop of [edit_file] computes the edit of the specification. *)
Lemma apply_edits_applies edits s s' :
  apply_edits edits s = inr s' ↔ applies edits s s'.
Proof.
  revert s. induction edits as [|edit rest IH]; intros s; simpl.
  - split; [intros [= ->]; constructor | by inversion 1].
  - destruct (PyStr.contains (oldText edit) s) eqn:Hc; simpl.
    + destruct (PyStrFacts.contains_first_occurrence _ _ Hc) as (pre & post & Hocc).
      rewrite (PyStrFacts.replace_first_spec _ (newText edit) _ _ _ Hocc), IH.
      split; [by econstructor|].
      inversion 1 as [|? ? ? pre' post' ? Hocc' Happ]; subst.
      by rewrite (first_occurrence_rewrite _ (newText edit) _ _ _ _ _ Hocc Hocc').
    + split; [done|].
      inversion 1 as [|? ? ? pre post ? [Hs _] _]; subst.
      assert (PyStr.contains (oldText edit) (pre +:+ oldText edit +:+ post) = true)
        by (apply PyStrFacts.contains_spec; eauto).
      congruence.
Qed.

(** It fails exactly when some pair finds its [oldText] absent, and the
    exception it raises is the 400 that names this [oldText]. *)
Lemma apply_edits_stuck edits s :
  (∃ e, apply_edits edits s = inl e) ↔ stuck edits s.
Proof.
  revert s. induction edits as [|edit rest IH]; intros s; simpl.
  - split; [by intros [e ?]|].
    intros (dn & edit & rest & mid & Heq & _). by destruct dn.
  - destruct (PyStr.contains (oldText edit) s) eqn:Hc; simpl.
    + rewrite IH.
      destruct (PyStrFacts.contains_first_occurrence _ _ Hc) as (pre & post & Hocc).
      rewrite (PyStrFacts.replace_first_spec _ (newText edit) _ _ _ Hocc).
      split.
      * intros (dn & e' & rest' & mid & -> & Happ & Hno).
        exists (edit :: dn), e', rest', mid. split; [done|]. split; [by econstructor | done].
      * intros (dn & e' & rest' & mid & Heq & Happ & Hno).
        destruct dn as [|d dn]; simpl in Heq; injection Heq as <- ->.
        -- inversion Happ; subst. congruence.
        -- inversion Happ as [|? ? ? pre' post' ? Hocc' Happ']; subst.
           exists dn, e', rest', mid. split; [done|]. split; [|done].
           by rewrite (first_occurrence_rewrite _ (newText edit) _ _ _ _ _ Hocc Hocc').
    + split; [|eauto]. intros _. exists [], edit, rest, s.
      split; [done|]. split; [constructor | done].
Qed.

Lemma apply_edits_error edits s e :
  apply_edits edits s = inl e →
  ∃ old, e = HTTPException 400
               (Text ("Edit failed: oldText not found in content: '"
                      +:+ PyStr.take 50 old +:+ "...'")).
Proof.
  revert s. induction edits as [|edit rest IH]; intros s; simpl; [done|].
  destruct (PyStr.contains (oldText edit) s); simpl; [apply IH|].
  intros [= <-]. eauto.
Qed.

(** What [edit_file] does once the guard has accepted the path and the
    file has been read as the text [original]. *)
Lemma edit_file_run data w stored original :
  accepted (ef_path data) = true →
  refused w (resolve (ef_path data)) = false →
  FS.lookup (fs w) (resolve (ef_path data)) = Some (File stored) →
  as_text decode_utf8 stored = inr original →
  let p := resolve (ef_path data) in
  let w1 := add_logs [EvResolve (ef_path data); EvRead p] w in
  edit_file data w =
  match apply_edits (ef_edits data) original with
  | inl e =>
      (inl (HTTPException 500
              (Text ("Failed to write edited file " +:+ ef_path data
                     +:+ ": " +:+ exn_str e))), w1)
  | inr modified =>
      if ef_dryRun data then
        (inr (DiffResponse
                (PyStr.join ""
                   (unified_diff (splitlines original) (splitlines modified)
                      ("a/" +:+ ef_path data) ("b/" +:+ ef_path data)))), w1)
      else
        match FS.write_text modified (fs w) p with
        | inr n =>
            (inr (SuccessResponse ("Successfully edited file " +:+ ef_path data)),
             set_fs n (add_logs [EvResolve (ef_path data); EvRead p; EvWrite p] w))
        | inl e =>
            (inl (if is_PermissionError e
                  then HTTPException 403
                         (Text ("Permission denied to write edited file: "
                                +:+ ef_path data))
                  else HTTPException 500
                         (Text ("Failed to write edited file " +:+ ef_path data
                                +:+ ": " +:+ exn_str e))),
             add_logs [EvResolve (ef_path data); EvRead p; EvWrite p] w)
        end
  end.
Proof.
  intros Hacc Hrf Hl Htext p w1. subst p w1.
  unfold edit_file, bind, try_except. step. rewrite Hacc. step. rewrite Hrf, Hl, Htext.
  unfold lift_result.
  destruct (apply_edits (ef_edits data) original) as [e|modified] eqn:Ha.
  - destruct (apply_edits_error _ _ _ Ha) as [old ->].
    unfold raise. cbn [is_PermissionError]. by rewrite add_logs_add_logs.
  - unfold ret. fields. destruct (ef_dryRun data).
    + by rewrite add_logs_add_logs.
    + unfold Host.write_text. step. rewrite Hrf.
      destruct (FS.write_text modified (fs w) _) as [e|n] eqn:Hw.
      * unfold raise. rewrite !add_logs_add_logs. by destruct (is_PermissionError e).
      * by rewrite !add_logs_add_logs.
Qed.

(** C8. A dry run whose edits all apply answers with the unified diff
    between the lines of the original text and those of the fully
    edited text, and writes nothing: the file system is as before and
    the only accesses are the resolution of the path and the read of
    the file. The original text is what [read_text] makes of the stored
    content. *)
Theorem edit_file_dry_run (data : EditFileRequest) (w : world)
    (stored original modified : string) :
  accepted (ef_path data) = true →
  refused w (resolve (ef_path data)) = false →
  FS.lookup (fs w) (resolve (ef_path data)) = Some (File stored) →
  as_text decode_utf8 stored = inr original →
  applies (ef_edits data) original modified →
  ef_dryRun data = true →
  let run := edit_file data w in
  fst run =
    inr (DiffResponse
           (PyStr.join ""
              (unified_diff (splitlines original) (splitlines modified)
                 ("a/" +:+ ef_path data) ("b/" +:+ ef_path data))))
  ∧ fs (snd run) = fs w
  ∧ conf_file (snd run) = conf_file w
  ∧ io_log (snd run) =
      io_log w ++ [EvResolve (ef_path data); EvRead (resolve (ef_path data))].
Proof.
  intros Hacc Hrf Hl Htext Happ Hdry run. subst run.
  rewrite (edit_file_run _ _ _ _ Hacc Hrf Hl Htext).
  apply apply_edits_applies in Happ. by rewrite Happ, Hdry.
Qed.

(** Without dry run, edits that all apply are written as one text. *)
Lemma edit_file_writes data w stored original modified n :
  accepted (ef_path data) = true →
  refused w (resolve (ef_path data)) = false →
  FS.lookup (fs w) (resolve (ef_path data)) = Some (File stored) →
  as_text decode_utf8 stored = inr original →
  applies (ef_edits data) original modified →
  ef_dryRun data = false →
  FS.write_text modified (fs w) (resolve (ef_path data)) = inr n →
  fst (edit_file data w) =
    inr (SuccessResponse ("Successfully edited file " +:+ ef_path data))
  ∧ fs (snd (edit_file data w)) = n.
Proof.
  intros Hacc Hrf Hl Htext Happ Hdry Hw.
  rewrite (edit_file_run _ _ _ _ Hacc Hrf Hl Htext).
  apply apply_edits_applies in Happ. by rewrite Happ, Hdry, Hw.
Qed.

(** When some [oldText] is absent at its step nothing is written, and
    the 400 the loop raises is caught by the handler's own
    [except Exception] and answered as a 500. *)
Lemma edit_file_stuck data w stored original :
  accepted (ef_path data) = true →
  refused w (resolve (ef_path data)) = false →
  FS.lookup (fs w) (resolve (ef_path data)) = Some (File stored) →
  as_text decode_utf8 stored = inr original →
  stuck (ef_edits data) original →
  fs (snd (edit_file data w)) = fs w
  ∧ io_log (snd (edit_file data w)) =
      io_log w ++ [EvResolve (ef_path data); EvRead (resolve (ef_path data))]
  ∧ ∃ old, fst (edit_file data w) =
           inl (HTTPException 500
                  (Text ("Failed to write edited file " +:+ ef_path data
                         +:+ ": 400: Edit failed: oldText not found in content: '"
                         +:+ PyStr.take 50 old +:+ "...'"))).
Proof.
  intros Hacc Hrf Hl Htext Hstuck.
  rewrite (edit_file_run _ _ _ _ Hacc Hrf Hl Htext).
  apply apply_edits_stuck in Hstuck as [e He]. rewrite He.
  destruct (apply_edits_error _ _ _ He) as [old ->].
  split; [done|]. split; [done|]. by exists old.
Qed.

End Edit.

(** ** Searching for files *)

Section Search.

Context `{Platform}.

Lemma matching_items_allowed pattern root items r :
  r ∈ matching_items pattern root items → under_allowed r.
Proof.
  unfold matching_items. rewrite list_elem_of_fmap.
  intros (item & -> & Hin). apply list_elem_of_filter in Hin as [[_ Hal] _].
  apply existsb_exists in Hal as (alt & Hin & Hs).
  apply PyStrFacts.startswith_spec in Hs as [rest Hr].
  exists alt, rest. by rewrite list_elem_of_In.
Qed.

Lemma search_loop_allowed data walked acc results :
  search_loop data walked acc = inr results →
  (∀ r, r ∈ acc → under_allowed r) →
  ∀ r, r ∈ results → under_allowed r.
Proof.
  revert acc. induction walked as [|[[root dirs] files] walked IH]; intros acc; simpl.
  - by intros [= ->].
  - destruct (sf_excludePatterns data) as [patterns|]; [|done].
    destruct (excluded_by root patterns) as [e|[|]]; [done|by apply IH|].
    intros Hs Hacc. apply (IH _ Hs). intros r Hr.
    apply elem_of_app in Hr as [Hr|Hr]; [by apply Hacc|].
    by eapply matching_items_allowed.
Qed.

Lemma search_files_run data w :
  let base_path := resolve (sf_path data) in
  let walked := match FS.lookup (fs w) base_path with
                | Some n => FS.walk (refused w) base_path n
                | None => []
                end in
  search_files data w =
  if accepted (sf_path data) then
    (match search_loop data walked [] with
     | inl e => inl e
     | inr results => inr (FileMatches (or_placeholder results))
     end,
     add_logs [EvResolve (sf_path data); EvListDir base_path] w)
  else (inl (denial (sf_path data)), add_logs [EvResolve (sf_path data)] w).
Proof.
  intros base_path walked. subst base_path walked.
  unfold search_files, bind. step. destruct (accepted (sf_path data)); [|done].
  unfold Host.walk, bind, tell, get_world, ret, lift_result.
  rewrite add_log_add_logs, add_logs_add_logs. fields.
  by destruct (search_loop _ _ _).
Qed.

(** C10. Whatever [search_files] returns as matches is the placeholder
    or a list of path texts each of which starts, letter case included,
    with a configured allowed directory; a path text without such a
    prefix is never among them, even one that [normalize_path] would
    accept as the target of a request. *)
Theorem search_files_case_sensitive (data : SearchFilesRequest) (w : world)
    (resp : response) :
  fst (search_files data w) = inr resp →
  ∃ results,
    resp = FileMatches (or_placeholder results)
    ∧ (∀ r, r ∈ results → under_allowed r)
    ∧ (∀ r, accepted r = true → ¬ under_allowed r → r ∉ results).
Proof.
  rewrite search_files_run. destruct (accepted (sf_path data)); [|done]. simpl.
  destruct (search_loop _ _ _) as [e|results] eqn:Hs; [done|].
  intros [= <-]. exists results. split; [done|].
  assert (∀ r, r ∈ results → under_allowed r) as Hall.
  { eapply search_loop_allowed; [done|]. intros r Hr. by apply elem_of_nil in Hr. }
  split; [done|]. intros r _ Hn Hin. by apply Hn, Hall.
Qed.

End Search.

(** ** Tokens *)

Section Tokens.

Lemma hex_digit_eq n m : (n mod 16 = m mod 16)%N → hex_digit n = hex_digit m.
Proof. unfold hex_digit. by intros ->. Qed.

(** A token is made of five hexadecimal digits, which encode a number
    below [2^20]: of the 24 random bits drawn, 20 reach the token. *)
Ltac divmod := zify; Z.div_mod_to_equations; lia.

Lemma new_token_index (b0 b1 b2 : N) :
  (b0 < 256 → b1 < 256 → b2 < 256 →
   let i := b0 * 4096 + b1 * 16 + b2 / 16 in
   i < 2 ^ 20 ∧ new_token (b0, b1, b2) = token_of_index i)%N.
Proof.
  intros H0 H1 H2 i.
  assert (b2 / 16 < 16)%N as Hq by (apply N.Div0.div_lt_upper_bound; lia).
  assert (i / 65536 = b0 / 16)%N as E1 by (subst i; divmod).
  assert (i / 4096 = b0)%N as E2 by (subst i; divmod).
  assert (i / 256 = b0 * 16 + b1 / 16)%N as E3 by (subst i; divmod).
  assert (i / 16 = b0 * 256 + b1)%N as E4 by (subst i; divmod).
  split; [subst i; lia|].
  unfold new_token, token_of_index. cbn [hex_of_bytes PyStr.take].
  rewrite E1, E2, E3, E4.
  assert (hex_digit (b0 * 16 + b1 / 16) = hex_digit (b1 / 16)) as ->.
  { apply hex_digit_eq. rewrite N.add_comm. apply N.Div0.mod_add. }
  assert (hex_digit (b0 * 256 + b1) = hex_digit b1) as ->.
  { apply hex_digit_eq. replace (b0 * 256 + b1)%N with (b1 + (b0 * 16) * 16)%N by lia.
    apply N.Div0.mod_add. }
  assert (hex_digit i = hex_digit (b2 / 16)) as ->.
  { apply hex_digit_eq. subst i.
    replace (b0 * 4096 + b1 * 16 + b2 / 16)%N
      with (b2 / 16 + (b0 * 256 + b1) * 16)%N by lia.
    apply N.Div0.mod_add. }
  reflexivity.
Qed.

End Tokens.

(** * The handlers at work *)

Module Examples.
Import Demo.

Example new_token_abcde : new_token abcdef = "abcde".
Proof. reflexivity. Qed.





(** C2 fails on the code. [delete_path] on a path the guard denies has
    read the snapshot file by the time it answers with the denial. *)
Lemma delete_path_reads_snapshot_before_guard :
  let w := quiet data_tree (Snapshot ∅) in
  let run := @handle data_platform (DeletePath 0 0 abcdef passwd) w in
  fst run = inl (@denial data_platform "/etc/passwd")
  ∧ io_log (snd run) = [EvStatConf; EvReadConf; EvResolve "/etc/passwd"]
  ∧ is_stat EvReadConf = false.
Proof. vm_compute. done. Qed.

(** C2, the amended statement at this request. *)
Lemma guard_before_io_witness :
  let w := quiet data_tree (Snapshot ∅) in
  let run := @handle data_platform (DeletePath 0 0 abcdef passwd) w in
  fs (snd run) = fs w ∧ conf_file (snd run) = conf_file w.
Proof.
  intros w run.
  destruct (@guard_before_io data_platform (DeletePath 0 0 abcdef passwd) w)
    as (_ & _ & _ & Hden).
  destruct (Hden "/etc/passwd") as (Hf & Hc & _); [vm_compute; reflexivity|].
  split; [exact Hf | exact Hc].
Defined.

(** C8 at the request of the specification: the diff of the change
    from ["foo baz foo"] to ["bar baz foo"], and the file untouched. *)
Lemma edit_file_dry_run_witness :
  let w := quiet data_tree Missing in
  let run := @edit_file data_platform (foo_to_bar true) w in
  (∃ diff, fst run = inr (DiffResponse diff)) ∧ fs (snd run) = fs w.
Proof.
  intros w run.
  destruct (@edit_file_dry_run data_platform (foo_to_bar true) w
              "foo baz foo" "foo baz foo" "bar baz foo")
    as (Hr & Hf & _).
  - vm_compute. reflexivity.
  - reflexivity.
  - vm_compute. reflexivity.
  - vm_compute. reflexivity.
  - apply apply_edits_applies. vm_compute. reflexivity.
  - reflexivity.
  - split; [eexists; exact Hr | exact Hf].
Defined.

(** The edit of the specification, carried out. *)
Example edit_foo_baz_foo :
  let run := @edit_file data_platform (foo_to_bar false) (quiet data_tree Missing) in
  fst run = inr (SuccessResponse "Successfully edited file /data/a.txt")
  ∧ FS.lookup (fs (snd run)) ["data"; "a.txt"] = Some (File "bar baz foo").
Proof. vm_compute. done. Qed.

(** C7 against the code. The second edit does not find its [oldText]:
    nothing is written, not even the first edit, but the 400 raised in
    the loop is caught by the handler's [except Exception] and the
    request is answered with a 500. *)
Theorem edit_file_absent_oldText_is_500 :
  let w := quiet data_tree Missing in
  let run := @edit_file data_platform qux_to_bar w in
  fst run =
    inl (HTTPException 500
           (Text "Failed to write edited file /data/a.txt: 400: Edit failed: oldText not found in content: 'qux...'"))
  ∧ kind_of_status 500 = Internal
  ∧ fs (snd run) = fs w
  ∧ io_log (snd run) = [EvResolve "/data/a.txt"; EvRead ["data"; "a.txt"]].
Proof. vm_compute. done. Qed.

(** The searches of the specification: both files without exclusion,
    only [/root/a.txt] when ["sub"] is excluded. *)
Example search_small_tree :
  fst (@search_files root_platform (search_a []) (quiet small_tree Missing))
    = inr (FileMatches ["/root/a.txt"; "/root/sub/a.log"])
  ∧ fst (@search_files root_platform (search_a ["sub"]) (quiet small_tree Missing))
    = inr (FileMatches ["/root/a.txt"]).
Proof. vm_compute. done. Qed.

(** C6 against the code. With ["sub"] excluded, the file
    [/root/sub/deep/a.log], two levels below the excluded directory, is
    returned: the walk skips the entries of [/root/sub] itself and goes
    on into its subdirectories. *)
Theorem search_files_descends_into_excluded :
  fst (@search_files root_platform (search_a ["sub"]) (quiet deep_tree Missing))
    = inr (FileMatches ["/root/a.txt"; "/root/sub/deep/a.log"])
  ∧ @path_match root_platform ["root"; "sub"] "sub" = inr true.
Proof. vm_compute. done. Qed.

(** C10 at a concrete search. *)
Lemma search_files_case_sensitive_witness :
  ∃ results,
    fst (@search_files root_platform (search_a []) (quiet small_tree Missing))
      = inr (FileMatches (or_placeholder results))
    ∧ ∀ r, r ∈ results → @under_allowed root_platform r.
Proof.
  destruct (@search_files_case_sensitive root_platform (search_a [])
              (quiet small_tree Missing)
              (FileMatches ["/root/a.txt"; "/root/sub/a.log"]))
    as (results & Hr & Hall & _).
  - vm_compute. reflexivity.
  - exists results. split; [|exact Hall].
    transitivity (inr (B:=response) (A:=exn) (FileMatches ["/root/a.txt"; "/root/sub/a.log"]));
      [vm_compute; reflexivity | by rewrite Hr].
Defined.

(** C9 against the code. A snapshot file whose bytes are not text, or
    one that holds a JSON array, is malformed storage, yet
    [load_confirmations] does not return the empty mapping: the
    [UnicodeDecodeError] and the [AttributeError] are neither a
    [JSONDecodeError] nor an [IOError], so they escape its [except]
    clause, and with them every [delete_path] request fails with a
    500. *)
Theorem load_confirmations_raises_on_malformed_storage :
  let undecodable :=
    ValueError "'utf-8' codec can't decode byte 0xff in position 0: invalid start byte" in
  let no_items := AttributeError "'list' object has no attribute 'items'" in
  fst (load_confirmations 0 (quiet data_tree not_text)) = inl undecodable
  ∧ fst (load_confirmations 0 (quiet data_tree json_array)) = inl no_items
  ∧ fst (@delete_path data_platform 0 0 abcdef (a_txt None) (quiet data_tree not_text))
    = inl undecodable
  ∧ status_of undecodable = 500
  ∧ fs (snd (@delete_path data_platform 0 0 abcdef (a_txt None)
               (quiet data_tree not_text))) = data_tree.
Proof. vm_compute. done. Qed.

(** The gap C10 describes: with the allowed directory spelled [/Root],
    the guard accepts [/root] and [/root/a.txt], yet the search under
    [/root] returns nothing, though [a.txt] matches the pattern. *)
Example search_files_case_gap :
  @accepted capital_platform "/root" = true
  ∧ @accepted capital_platform "/root/a.txt" = true
  ∧ fst (@search_files capital_platform (search_a []) (quiet small_tree Missing))
    = inr (FileMatches ["No matches found"]).
Proof. vm_compute. done. Qed.

End Examples.

(** * Further properties of the handlers *)

(** ** The confirmation store, saved and loaded *)

Section StoreRoundTrip.

Context `{Platform}.

(** X1. [save_confirmations] never raises; where the snapshot cannot be
    written the failure is swallowed and the snapshot is as before. *)
Theorem save_confirmations_swallows (m : gmap string confirmation) (w : world) :
  fst (save_confirmations m w) = inr tt
  ∧ fs (snd (save_confirmations m w)) = fs w
  ∧ (conf_writable w = false →
     conf_file (snd (save_confirmations m w)) = conf_file w).
Proof.
  rewrite save_confirmations_run. split; [done|].
  destruct (conf_writable w); by repeat split.
Qed.

(** X2. What has been saved is loaded back, less the entries that have
    expired by the time of the load. *)
Theorem save_then_load (m : gmap string confirmation) (now : Z) (w : world) :
  conf_writable w = true →
  ∃ loaded,
    fst (load_confirmations now (snd (save_confirmations m w))) = inr loaded
    ∧ ∀ token c, loaded !! token = Some c ↔ m !! token = Some c ∧ now < c_expiry c.
Proof.
  intros Hw. rewrite save_confirmations_run, Hw, load_confirmations_run.
  cbn [fst snd conf_file set_conf_file load_outcome].
  eexists. split; [done|]. intros token c.
  rewrite load_loop_lookup, lookup_fmap.
  destruct (m !! token) as [c'|]; simpl.
  - destruct (c_expiry c' >? now) eqn:E.
    + split; [intros [= ->]; split; [done | lia] | by intros [[= ->] _]].
    + split; [done | intros [[= ->] Hlt]; lia].
  - split; [done | by intros [? _]].
Qed.

(** X3. The startup hook never raises, whether the host lets it remove
    the snapshot or not: a refusal is swallowed and the snapshot stays.
    Where the host does let it, no token issued before is honoured
    afterwards: any request that presents one is refused with the 400 of
    an invalid token and deletes nothing. *)
Theorem restart_discards_tokens (w : world) (t_load t_now : Z) (entropy : N * N * N)
    (data : DeletePathRequest) (token : string) :
  let started := snd (cleanup_stale_confirmation_file w) in
  let run := delete_path t_load t_now entropy data started in
  fst (cleanup_stale_confirmation_file w) = inr tt
  ∧ fs started = fs w
  ∧ (conf_writable w = false → conf_file started = conf_file w)
  ∧ (conf_writable w = true →
     conf_file started = Missing
     ∧ (supplied_token data = Some token →
        accepted (dp_path data) = true →
        fst run = inl (HTTPException 400 (Text "Invalid or expired confirmation token."))
        ∧ fs (snd run) = fs w)).
Proof.
  intros started run. subst started run.
  assert (cleanup_stale_confirmation_file w =
          (inr tt, match conf_file w with
                   | Missing => add_logs [EvStatConf] w
                   | _ => if conf_writable w
                          then set_conf_file Missing (add_logs [EvStatConf; EvWriteConf] w)
                          else add_logs [EvStatConf; EvWriteConf] w
                   end)) as Hclean.
  { unfold cleanup_stale_confirmation_file, try_except, Host.conf_exists,
      Host.conf_unlink, bind, tell, get_world, ret, raise, add_log, add_logs, set_conf_file.
    destruct w as [n rf cf cw lg]; simpl in *.
    destruct cf, cw; simpl; rewrite <- ?app_assoc; reflexivity. }
  rewrite Hclean. cbn [fst snd]. split; [done|].
  set (started := match conf_file w with Missing => _ | _ => _ end).
  assert (fs started = fs w) as Hf
    by (subst started; by destruct (conf_file w), (conf_writable w)).
  split; [done|]. split.
  { intros Hw. subst started. rewrite Hw.
    by destruct (conf_file w) eqn:E; simpl; rewrite ?E. }
  intros Hw.
  assert (conf_file started = Missing) as Hc
    by (subst started; rewrite Hw; by destruct (conf_file w) eqn:E; rewrite ?E).
  split; [done|]. intros Htok Hacc.
  unfold delete_path, bind. step. rewrite Hc. cbn [load_outcome load_events].
  step. rewrite Hacc, Htok, lookup_empty. unfold raise. by fields.
Qed.

End StoreRoundTrip.

(** ** More of the delete workflow *)

Section DeleteMore.

Context `{Platform}.


(** X5. Without a token, a path that does not exist is answered with a 404
    and no confirmation is issued: the snapshot is not written. *)
Theorem delete_path_missing_target (t_load t_now : Z) (entropy : N * N * N)
    (data : DeletePathRequest) (w : world) :
  loadable (conf_file w) = true →
  supplied_token data = None →
  accepted (dp_path data) = true →
  FS.lookup (fs w) (resolve (dp_path data)) = None →
  let run := delete_path t_load t_now entropy data w in
  fst run = inl (HTTPException 404 (Text ("Path not found: " +:+ dp_path data)))
  ∧ conf_file (snd run) = conf_file w
  ∧ fs (snd run) = fs w
  ∧ io_log (snd run) =
      io_log w ++ load_events (conf_file w)
      ++ [EvResolve (dp_path data); EvStat (resolve (dp_path data))].
Proof.
  intros Hload Htok Hacc Hl run. subst run.
  destruct (loadable_outcome t_load _ Hload) as [pending Hp].
  unfold delete_path, bind. step. rewrite Hp.
  step. rewrite Hacc, Htok. step. rewrite Hl.
  rewrite bool_decide_false by (by intros [? ?]).
  unfold raise. fields. by rewrite <- !app_assoc.
Qed.

(** X6. [delete_path] changes the file system only for a request that
    presents a token which the snapshot holds, unexpired at both
    readings of the clock, for exactly the path string and the flag of
    the request. *)
Theorem delete_needs_confirmation (t_load t_now : Z) (entropy : N * N * N)
    (data : DeletePathRequest) (w : world) :
  fs (snd (delete_path t_load t_now entropy data w)) ≠ fs w →
  ∃ stored token cd,
    conf_file w = Snapshot stored
    ∧ supplied_token data = Some token
    ∧ stored !! token = Some (Stored cd)
    ∧ c_path cd = dp_path data
    ∧ c_recursive cd = dp_recursive data
    ∧ t_load < c_expiry cd
    ∧ t_now ≤ c_expiry cd
    ∧ accepted (dp_path data) = true.
Proof.
  unfold delete_path, bind. step.
  destruct (load_outcome t_load (conf_file w)) as [e|pending] eqn:Hout; [done|].
  step. destruct (accepted (dp_path data)) eqn:Hacc; [|done].
  destruct (supplied_token data) as [token|] eqn:Htok.
  - destruct (pending !! token) as [cd|] eqn:Hp; [|done].
    destruct (load_outcome_lookup _ _ _ _ _ Hout Hp) as (stored & Hconf & Hst & Hlt).
    destruct (t_now >? c_expiry cd) eqn:Hnow.
    + step. unfold raise. by destruct (conf_writable w).
    + destruct (negb _ || negb _) eqn:Hmis; [done|].
      intros _. exists stored, token, cd.
      apply orb_false_elim in Hmis as [H1 H2].
      apply negb_false_iff in H1, H2.
      apply String.eqb_eq in H1. apply eqb_prop in H2.
      repeat split; try done. lia.
  - step. destruct (bool_decide _); fields; [|done].
    step. unfold ret. by destruct (conf_writable w).
Qed.

Lemma alter_err f n p x e :
  p ≠ [] → FS.lookup n p = Some x → f (Some x) = inl e → FS.alter f n p = inl e.
Proof.
  revert n. induction p as [|c p IH]; intros n Hne Hl Hf; [done|].
  destruct n as [content|es]; [done|]. simpl in Hl.
  destruct (Entries.lookup c es) as [child|] eqn:Ec; [|done].
  destruct p as [|c' p].
  - simpl in Hl. injection Hl as ->. simpl. by rewrite Ec, Hf.
  - change (FS.alter f (Dir es) (c :: c' :: p))
      with (match Entries.lookup c es with
            | None => inl (FileNotFoundError "No such file or directory")
            | Some child =>
                match FS.alter f child (c' :: p) with
                | inl e => inl e
                | inr child' => inr (Dir (Entries.set c child' es))
                end
            end).
    by rewrite Ec, (IH child).
Qed.

(** X7. A confirmed request for a directory that is not empty, without the
    recursive flag, removes nothing; its token is spent all the same, and
    the 400 that asks for [recursive=True] reaches the caller wrapped in
    a 500, the handler's [except Exception] having caught it. *)
Theorem delete_path_nonempty_directory (t_load t_now : Z) (entropy : N * N * N)
    (data : DeletePathRequest) (w : world) (stored : gmap string raw_entry)
    (token : string) (cd : confirmation) (first : string * node)
    (others : list (string * node)) :
  conf_file w = Snapshot stored →
  stored !! token = Some (Stored cd) →
  t_load < c_expiry cd →
  t_now ≤ c_expiry cd →
  supplied_token data = Some token →
  accepted (dp_path data) = true →
  c_path cd = dp_path data →
  c_recursive cd = dp_recursive data →
  conf_writable w = true →
  dp_recursive data = false →
  resolve (dp_path data) ≠ [] →
  refused w (resolve (dp_path data)) = false →
  FS.lookup (fs w) (resolve (dp_path data)) = Some (Dir (first :: others)) →
  let run := delete_path t_load t_now entropy data w in
  fs (snd run) = fs w
  ∧ (∃ left, conf_file (snd run) = Snapshot left ∧ left !! token = None)
  ∧ ∃ cause,
      fst run =
      inl (HTTPException 500
             (Text ("Failed to delete " +:+ dp_path data
                    +:+ ": 400: Directory not empty. Use 'recursive=True' to delete non-empty directories. Original error: "
                    +:+ cause))).
Proof.
  intros Hconf Hst Hload Hnow Htok Hacc Hp Hr Hw Hrec Hne Hrf Hl run. subst run.
  rewrite (delete_path_confirm _ _ _ _ _ _ _ _ Hconf Hst Hload Hnow Htok Hacc Hp Hr Hw).
  unfold perform_delete, try_except, bind. step. rewrite Hl.
  rewrite bool_decide_true by eauto. step. rewrite Hl. step. rewrite Hl.
  rewrite Hrec. unfold Host.rmdir. step. rewrite Hrf.
  unfold FS.rmdir.
  rewrite (alter_err _ _ _ (Dir (first :: others)) (OSError "Directory not empty") Hne Hl)
    by done.
  unfold raise. cbn [is_OSError is_PermissionError fst snd].
  split; [done|]. split.
  - eexists. split; [done|]. by rewrite lookup_fmap, lookup_delete_eq.
  - by eexists.
Qed.

(** X8. Issuing a token rewrites the whole snapshot from what was loaded:
    the new token is bound to the request, the other tokens that are
    still unexpired are kept as they were, and entries that have expired
    or cannot be read are dropped from the file. An earlier binding of
    the same token text is replaced. *)
Theorem delete_path_issue_prunes (t_load t_now : Z) (entropy : N * N * N)
    (X : string) (R : bool) (w : world) (old : gmap string raw_entry) :
  conf_file w = Snapshot old →
  conf_writable w = true →
  accepted X = true →
  is_Some (FS.lookup (fs w) (resolve X)) →
  let T := new_token entropy in
  let run := delete_path t_load t_now entropy
               {| dp_path := X; dp_recursive := R; dp_confirmation_token := None |} w in
  ∃ new,
    conf_file (snd run) = Snapshot new
    ∧ new !! T = Some (Stored (Confirmation X R
                                 (t_now + timedelta_seconds CONFIRMATION_TTL_SECONDS)))
    ∧ (∀ k c, k ≠ T →
              (new !! k = Some (Stored c) ↔
               old !! k = Some (Stored c) ∧ t_load < c_expiry c))
    ∧ (∀ k why, new !! k ≠ Some (Broken why)).
Proof.
  intros Hconf Hw Hacc Hex T run. subst run.
  rewrite (delete_path_issue t_load t_now entropy X R w
             (map_fold (load_entry t_load) ∅ old)); [|by rewrite Hconf|done..].
  fold T. cbn [snd conf_file set_conf_file]. eexists. split; [done|].
  split; [by rewrite lookup_fmap, lookup_insert_eq|]. split.
  - intros k c Hk. rewrite lookup_fmap, lookup_insert_ne, load_loop_lookup by done.
    destruct (old !! k) as [[c'|why]|]; simpl.
    + destruct (c_expiry c' >? t_load) eqn:E; simpl.
      * split; [intros [= ->]; split; [done | lia] | by intros [[= ->] _]].
      * split; [done | intros [[= ->] Hlt]; lia].
    + split; [done | by intros [? _]].
    + split; [done | by intros [? _]].
  - intros k why. rewrite lookup_fmap. by destruct (_ !! k).
Qed.

(** X9. Where the snapshot cannot be written, a request without token is
    still answered with a token, but the token is stored nowhere: the
    failure of the save is swallowed and the snapshot is as before. *)
Theorem delete_path_issue_unsaved (t_load t_now : Z) (entropy : N * N * N)
    (X : string) (R : bool) (w : world) :
  loadable (conf_file w) = true →
  conf_writable w = false →
  accepted X = true →
  is_Some (FS.lookup (fs w) (resolve X)) →
  let run := delete_path t_load t_now entropy
               {| dp_path := X; dp_recursive := R; dp_confirmation_token := None |} w in
  (∃ msg, fst run =
          inr (ConfirmationRequiredResponse msg (new_token entropy)
                 (t_now + timedelta_seconds CONFIRMATION_TTL_SECONDS)))
  ∧ conf_file (snd run) = conf_file w
  ∧ fs (snd run) = fs w.
Proof.
  intros Hload Hw Hacc Hex run. subst run.
  destruct (loadable_outcome t_load _ Hload) as [pending Hp].
  unfold delete_path, bind. step. rewrite Hp. cbn [dp_path].
  step. rewrite Hacc. cbn [supplied_token dp_confirmation_token dp_path dp_recursive].
  step. rewrite bool_decide_true by done. step. rewrite Hw.
  unfold ret. fields. eauto.
Qed.


Lemma entries_lookup_set_eq c child es :
  Entries.lookup c (Entries.set c child es) = Some child.
Proof.
  induction es as [|[k m] es IH]; simpl.
  - by rewrite String.eqb_refl.
  - destruct (String.eqb k c) eqn:E; simpl; by rewrite E.
Qed.




End DeleteMore.

(** ** Reading and writing files *)

Section FilesMore.

Context `{Platform}.

Lemma write_text_lookup content n p n' :
  FS.write_text content n p = inr n' → FS.lookup n' p = Some (File content).
Proof.
  unfold FS.write_text.
  revert n n'. induction p as [|c p IH]; intros n n' Ha; [done|].
  destruct n as [old|es]; [by destruct p|].
  destruct p as [|c' p].
  - simpl in Ha.
    destruct (Entries.lookup c es) as [[old|sub]|]; try done;
      injection Ha as <-; simpl; by rewrite entries_lookup_set_eq.
  - match type of Ha with
    | FS.alter ?f _ _ = _ =>
        change (FS.alter f (Dir es) (c :: c' :: p))
          with (match Entries.lookup c es with
                | None => inl (FileNotFoundError "No such file or directory")
                | Some child =>
                    match FS.alter f child (c' :: p) with
                    | inl e => inl e
                    | inr child' => inr (Dir (Entries.set c child' es))
                    end
                end) in Ha
    end.
    destruct (Entries.lookup c es) as [child|]; [|done].
    destruct (FS.alter _ child (c' :: p)) as [e|child'] eqn:Hc; [done|].
    injection Ha as <-.
    change (FS.lookup (Dir (Entries.set c child' es)) (c :: c' :: p))
      with (match Entries.lookup c (Entries.set c child' es) with
            | Some child => FS.lookup child (c' :: p)
            | None => None
            end).
    rewrite entries_lookup_set_eq. by apply (IH child).
Qed.

Lemma write_file_run data w :
  accepted (wf_path data) = true →
  let p := resolve (wf_path data) in
  let w1 := add_logs [EvResolve (wf_path data); EvWrite p] w in
  write_file data w =
  if refused w p
  then (inl (HTTPException 403
               (Text ("Permission denied to write to " +:+ wf_path data))), w1)
  else match FS.write_text (wf_content data) (fs w) p with
       | inr n => (inr (SuccessResponse ("Successfully wrote to " +:+ wf_path data)),
                   set_fs n w1)
       | inl e => (inl (if is_PermissionError e
                        then HTTPException 403
                               (Text ("Permission denied to write to " +:+ wf_path data))
                        else HTTPException 500
                               (Text ("Failed to write to " +:+ wf_path data
                                      +:+ ": " +:+ exn_str e))), w1)
       end.
Proof.
  intros Hacc p w1. subst p w1.
  unfold write_file, bind, try_except. step. rewrite Hacc.
  unfold Host.write_text. step. rewrite add_logs_add_logs.
  destruct (refused w _); [done|].
  destruct (FS.write_text _ _ _) as [e|n]; [|done].
  unfold raise. by destruct (is_PermissionError e).
Qed.

Lemma read_file_run path w :
  accepted path = true →
  let p := resolve path in
  read_file path w =
  (if refused w p
   then inl (HTTPException 403 (Text ("Permission denied for file: " +:+ path)))
   else match FS.lookup (fs w) p with
        | Some (File content) =>
            match decode_utf8 content with
            | Decoded text => inr (ReadFileResponse (PyStr.universal_newlines text))
            | Undecodable reason =>
                inl (HTTPException 500
                       (Text ("Failed to read file " +:+ path +:+ ": " +:+ reason)))
            end
        | Some (Dir _) =>
            inl (HTTPException 500
                   (Text ("Failed to read file " +:+ path +:+ ": Is a directory")))
        | None =>
            if FS.below_file (fs w) p
            then inl (HTTPException 500
                        (Text ("Failed to read file " +:+ path +:+ ": Not a directory")))
            else inl (HTTPException 404 (Text ("File not found: " +:+ path)))
        end,
   add_logs [EvResolve path; EvRead p] w).
Proof.
  intros Hacc p. subst p.
  unfold read_file, bind, try_except. step. rewrite Hacc. step.
  rewrite add_logs_add_logs.
  destruct (refused w _); [done|].
  destruct (FS.lookup _ _) as [[content|es]|]; [|done|].
  - unfold as_text. by destruct (decode_utf8 content).
  - unfold FS.missing. by destruct (FS.below_file _ _).
Qed.

Lemma universal_newlines_plain s :
  PyStr.contains (String "013" EmptyString) s = false →
  PyStr.universal_newlines s = s.
Proof.
  induction s as [|c s IH]; [done|].
  cbn [PyStr.contains PyStr.startswith PyStr.universal_newlines].
  rewrite (Ascii.eqb_sym c).
  destruct (Ascii.eqb "013" c); [by destruct s|].
  cbn [orb]. intros Hs. by rewrite (IH Hs).
Qed.

(** X11. What [write_file] has written, [read_file] returns as a read in
    text mode gives it: after a write that succeeded, reading the same
    path gives back the content with every ["\r\n"] and every other
    ["\r"] turned into ["\n"], whatever was at the path before; that
    is the content itself where it holds no carriage return. The content
    is text, which decodes to itself. *)
Theorem write_then_read (data : WriteFileRequest) (w : world) (resp : response) :
  accepted (wf_path data) = true →
  fst (write_file data w) = inr resp →
  decode_utf8 (wf_content data) = Decoded (wf_content data) →
  let back := fst (read_file (wf_path data) (snd (write_file data w))) in
  back = inr (ReadFileResponse (PyStr.universal_newlines (wf_content data)))
  ∧ (PyStr.contains (String "013" EmptyString) (wf_content data) = false →
     back = inr (ReadFileResponse (wf_content data))).
Proof.
  intros Hacc Hrun Hdec back.
  assert (back = inr (ReadFileResponse (PyStr.universal_newlines (wf_content data))))
    as Hback.
  { subst back. revert Hrun. rewrite (write_file_run _ _ Hacc).
    destruct (refused w (resolve (wf_path data))) eqn:Hrf; [done|].
    destruct (FS.write_text _ _ _) as [e|n] eqn:Hw; [done|]. intros _.
    rewrite (read_file_run _ _ Hacc). cbn [fst snd fs refused set_fs add_logs].
    by rewrite Hrf, (write_text_lookup _ _ _ _ Hw), Hdec. }
  split; [done|]. intros Hplain. by rewrite Hback, universal_newlines_plain.
Qed.

(** X12. [read_file] maps what it finds to a status. It succeeds exactly
    on a file the host lets it read whose content is UTF-8, with the
    decoded text, line ends translated. It answers 403 where the host
    denies permission, 404 where nothing exists at the path and no
    component of it is a regular file, and 500 for a directory, for a
    path below a regular file and for a file whose content is not
    UTF-8. *)
Theorem read_file_statuses (path : string) (w : world) :
  accepted path = true →
  let p := resolve path in
  match fst (read_file path w) with
  | inr resp =>
      ∃ content text,
        refused w p = false
        ∧ FS.lookup (fs w) p = Some (File content)
        ∧ decode_utf8 content = Decoded text
        ∧ resp = ReadFileResponse (PyStr.universal_newlines text)
  | inl e =>
      (status_of e = 403 ∧ refused w p = true)
      ∨ (status_of e = 404 ∧ refused w p = false
         ∧ FS.lookup (fs w) p = None ∧ FS.below_file (fs w) p = false)
      ∨ (status_of e = 500 ∧ refused w p = false
         ∧ ((∃ es, FS.lookup (fs w) p = Some (Dir es))
            ∨ (FS.lookup (fs w) p = None ∧ FS.below_file (fs w) p = true)
            ∨ (∃ content reason,
                 FS.lookup (fs w) p = Some (File content)
                 ∧ decode_utf8 content = Undecodable reason)))
  end.
Proof.
  intros Hacc p. subst p. rewrite (read_file_run _ _ Hacc). cbn [fst].
  destruct (refused w _); [by left|].
  destruct (FS.lookup _ _) as [[content|es]|].
  - destruct (decode_utf8 content) as [text|reason] eqn:Hd; [by exists content, text|].
    right. right. split; [done|]. split; [done|]. right. right. eauto.
  - right. right. split; [done|]. split; [done|]. left. eauto.
  - destruct (FS.below_file _ _).
    + right. right. split; [done|]. split; [done|]. right. by left.
    + right. by left.
Qed.

(** X13. An edit that was carried out is what [read_file] then returns,
    as a read in text mode gives it: the text the edits of the request
    produce from the original, with its line ends translated. The
    original is what [read_text] makes of the stored content, and the
    edited text decodes to itself. *)
Theorem edit_then_read (data : EditFileRequest) (w : world) (stored original : string)
    (resp : response) :
  accepted (ef_path data) = true →
  FS.lookup (fs w) (resolve (ef_path data)) = Some (File stored) →
  as_text decode_utf8 stored = inr original →
  ef_dryRun data = false →
  fst (edit_file data w) = inr resp →
  ∃ modified,
    applies (ef_edits data) original modified
    ∧ (decode_utf8 modified = Decoded modified →
       fst (read_file (ef_path data) (snd (edit_file data w)))
       = inr (ReadFileResponse (PyStr.universal_newlines modified))).
Proof.
  intros Hacc Hl Htext Hdry.
  destruct (refused w (resolve (ef_path data))) eqn:Hrf.
  { unfold edit_file, bind, try_except. step. rewrite Hacc. step. by rewrite Hrf. }
  rewrite (edit_file_run _ _ _ _ Hacc Hrf Hl Htext), Hdry.
  destruct (apply_edits _ _) as [e|modified] eqn:Ha; [done|].
  destruct (FS.write_text _ _ _) as [e|n] eqn:Hw; [done|]. intros _.
  exists modified. split; [by apply apply_edits_applies|]. intros Hdec.
  rewrite (read_file_run _ _ Hacc). cbn [fst snd fs refused set_fs add_logs].
  by rewrite Hrf, (write_text_lookup _ _ _ _ Hw), Hdec.
Qed.

(** X14. Edits whose [oldText] is empty never fail: the empty text occurs at
    the start of every content, so each [newText] in turn is put in
    front of what the edits before it have produced. *)
Theorem apply_edits_empty_oldText (edits : list EditOperation) (content : string) :
  Forall (λ edit, oldText edit = "") edits →
  apply_edits edits content
  = inr (fold_left (λ modified edit, newText edit +:+ modified) edits content).
Proof.
  intros Hall. revert content.
  induction Hall as [|[old new] rest Hold _ IH]; intros content; [done|].
  simpl in Hold. subst old. simpl. rewrite <- IH. by destruct content.
Qed.

End FilesMore.

(** ** Handlers that only look *)

Section ReadOnly.

Context {R : relation world} `{!ReadFrame R} {A B : Type}.

Lemma reads_ret (a : A) : preserves R (ret a).
Proof. intros w. apply read_refl. Qed.

Lemma reads_raise (e : exn) : preserves R (@raise A e).
Proof. intros w. apply read_refl. Qed.

Lemma reads_bind (m : M A) (k : A → M B) :
  preserves R m → (∀ a, preserves R (k a)) → preserves R (bind m k).
Proof.
  intros Hm Hk w. unfold bind. specialize (Hm w).
  destruct (m w) as [[e|a] w']; simpl in *; [done|].
  eapply read_trans; [exact Hm | apply Hk].
Qed.

Lemma reads_try (m : M A) (h : exn → M A) :
  preserves R m → (∀ e, preserves R (h e)) → preserves R (try_except m h).
Proof.
  intros Hm Hh w. unfold try_except. specialize (Hm w).
  destruct (m w) as [[e|a] w']; simpl in *; [|done].
  eapply read_trans; [exact Hm | apply Hh].
Qed.

Lemma reads_if (b : bool) (m1 m2 : M A) :
  preserves R m1 → preserves R m2 → preserves R (if b then m1 else m2).
Proof. by destruct b. Qed.

Lemma reads_lift_result (r : exn + A) : preserves R (lift_result r).
Proof. destruct r; intros w; apply read_refl. Qed.

Lemma reads_tell ev : preserves R (tell ev).
Proof. intros w. apply read_log. Qed.

Lemma reads_get_world : preserves R get_world.
Proof. intros w. apply read_refl. Qed.

End ReadOnly.

#[export] Instance same_disk_read_frame : ReadFrame same_disk.
Proof.
  split; unfold same_disk.
  - done.
  - intros w1 w2 w3 [H1 H2] [H3 H4]. split; congruence.
  - done.
Qed.

(** One step of the decomposition of a handler that only reads. *)
Ltac reads1 :=
  first
    [ apply reads_ret | apply reads_raise | apply reads_tell
    | apply reads_get_world | apply reads_lift_result
    | apply reads_bind; [|intros ?]
    | apply reads_try; [|intros ?]
    | apply reads_if
    | match goal with
      | |- preserves _ (match ?x with _ => _ end) => destruct x
      end ].

Section ReadOnlyHandlers.

Context `{Platform}.

Lemma reads_scan_files query items : preserves same_disk (scan_files query items).
Proof.
  induction items as [|item rest IH]; simpl;
    unfold Host.is_file, Host.open_read, check_permission;
    repeat first [exact IH | reads1].
Qed.

Lemma reads_build_tree p n : preserves same_disk (build_tree p n).
Proof.
  revert p. induction n as [content|es IH] using node_tree_ind; intros p.
  - simpl. unfold check_permission. repeat reads1.
  - cbn [build_tree].
    apply reads_bind; [apply reads_tell | intros _].
    apply reads_bind; [unfold check_permission; repeat reads1 | intros _].
    induction IH as [|[name item] rest Hitem _ IHrest]; [apply reads_ret|].
    apply reads_bind; [|intros children].
    + destruct (is_dir_node item); [|apply reads_ret].
      apply reads_bind; [apply Hitem | intros below; apply reads_ret].
    + apply reads_bind; [exact IHrest | intros more; apply reads_ret].
Qed.

(** X15. [read_file], [list_directory], [directory_tree], [search_files],
    [search_content], [get_metadata] and [list_allowed_directories]
    change nothing: whatever the request and whatever they answer, the
    file system and the confirmation snapshot are as before. *)
Theorem read_only_handlers (r : request) (w : world) :
  is_read_only r = true →
  fs (snd (handle r w)) = fs w ∧ conf_file (snd (handle r w)) = conf_file w.
Proof.
  intros Hro. change (same_disk w (snd (handle r w))).
  revert w. change (preserves same_disk (handle r)).
  destruct r; try discriminate; cbn [handle];
    unfold read_file, list_directory, directory_tree, search_files, search_content,
      get_metadata, list_allowed_directories, normalize_path,
      Host.read_text, Host.open_read, Host.is_dir, Host.is_file, Host.exists_,
      Host.iterdir, Host.walk, check_permission;
    repeat first [apply reads_scan_files | apply reads_build_tree | reads1].
Qed.

End ReadOnlyHandlers.

(** ** The walk of [search_files] *)

Section SearchMore.

Context `{Platform}.

Lemma walk_unfold denied root es :
  FS.walk denied root (Dir es) =
  if denied root then []
  else (root, FS.dir_names es, FS.file_names es)
       :: flat_map (λ e, FS.walk denied (path_join root (fst e)) (snd e)) es.
Proof.
  simpl. destruct (denied root); [done|]. f_equal.
  induction es as [|[name child] es IH]; simpl; [done|]. by rewrite IH.
Qed.

Lemma entries_lookup_elem c es child :
  Entries.lookup c es = Some child → (c, child) ∈ es.
Proof.
  induction es as [|[k m] es IH]; simpl; [done|].
  destruct (String.eqb_spec k c) as [->|Hne].
  - intros [= ->]. apply list_elem_of_here.
  - intros Hl. apply list_elem_of_further. auto.
Qed.

(** A directory reached from the base of the walk is walked, when the
    host lets the walk scan it and every directory on the way to it. *)
Lemma walk_reaches denied base n rel es :
  (∀ k, denied (base ++ take k rel) = false) →
  FS.lookup n rel = Some (Dir es) →
  (base ++ rel, FS.dir_names es, FS.file_names es) ∈ FS.walk denied base n.
Proof.
  revert base n. induction rel as [|c rel IH]; intros base n Hopen Hl.
  - simpl in Hl. injection Hl as ->. rewrite app_nil_r, walk_unfold.
    specialize (Hopen 0%nat). simpl in Hopen. rewrite app_nil_r in Hopen.
    rewrite Hopen. apply list_elem_of_here.
  - destruct n as [content|es0]; [done|]. simpl in Hl.
    destruct (Entries.lookup c es0) as [child|] eqn:Ec; [|done].
    rewrite walk_unfold.
    pose proof (Hopen 0%nat) as Hbase. simpl in Hbase. rewrite app_nil_r in Hbase.
    rewrite Hbase. apply list_elem_of_further.
    apply list_elem_of_In, in_flat_map. exists (c, child). split.
    + by apply list_elem_of_In, entries_lookup_elem.
    + apply list_elem_of_In. simpl.
      replace (base ++ c :: rel) with (path_join base c ++ rel)
        by (unfold path_join; by rewrite <- app_assoc).
      apply IH; [|done]. intros k. specialize (Hopen (S k)). simpl in Hopen.
      unfold path_join. by rewrite <- app_assoc.
Qed.

(** Every walked directory lies, as a path, under the base of the walk. *)
Lemma walk_under_base denied base n root dirs files :
  (root, dirs, files) ∈ FS.walk denied base n → ∃ rel, root = base ++ rel.
Proof.
  revert base. induction n as [content|es IH] using node_tree_ind; intros base Hin.
  - by apply elem_of_nil in Hin.
  - rewrite walk_unfold in Hin.
    destruct (denied base); [by apply elem_of_nil in Hin|].
    apply elem_of_cons in Hin as [[= -> _ _]|Hin].
    + exists []. by rewrite app_nil_r.
    + apply list_elem_of_In, in_flat_map in Hin as ([name child] & Hchild & Hin).
      apply list_elem_of_In in Hchild, Hin.
      rewrite Forall_forall in IH.
      destruct (IH _ Hchild _ Hin) as [rel ->].
      exists (name :: rel). unfold path_join. by rewrite <- app_assoc.
Qed.

Lemma matching_items_elem pattern root items r :
  r ∈ matching_items pattern root items ↔
  ∃ item, item ∈ items
          ∧ PyStr.contains (lower pattern) (lower item) = true
          ∧ under_allowed r
          ∧ r = path_str (path_join root item).
Proof.
  unfold matching_items. rewrite list_elem_of_fmap. split.
  - intros (item & -> & Hin). apply list_elem_of_filter in Hin as [[Hc Hal] Hin].
    exists item. repeat split; try done.
    apply existsb_exists in Hal as (alt & Halt & Hs).
    apply PyStrFacts.startswith_spec in Hs as [rest Hr].
    exists alt, rest. by rewrite list_elem_of_In.
  - intros (item & Hin & Hc & (alt & rest & Halt & Hr) & ->).
    exists item. split; [done|]. apply list_elem_of_filter. split; [|done].
    split; [done|]. apply existsb_exists. exists alt.
    split; [by apply list_elem_of_In|].
    apply PyStrFacts.startswith_spec. by exists rest.
Qed.

(** What the loop over the walk collects. *)
Lemma search_loop_elem data patterns walked acc results :
  sf_excludePatterns data = Some patterns →
  search_loop data walked acc = inr results →
  ∀ r, r ∈ results ↔
       r ∈ acc
       ∨ ∃ root dirs files,
           (root, dirs, files) ∈ walked
           ∧ excluded_by root patterns = inr false
           ∧ r ∈ matching_items (sf_pattern data) root (files ++ dirs).
Proof.
  intros Hpat. revert acc.
  induction walked as [|[[root dirs] files] walked IH]; intros acc; simpl.
  - intros [= ->] r. split; [by left|].
    intros [Hr|(? & ? & ? & Hin & _)]; [done | by apply elem_of_nil in Hin].
  - rewrite Hpat. destruct (excluded_by root patterns) as [e|[|]] eqn:Hex; [done| |].
    + intros Hs r. rewrite (IH _ Hs). split.
      * intros [Hr|(root1 & dirs1 & files1 & Hin & Hrest)]; [by left|].
        right. exists root1; exists dirs1; exists files1.
        split; [by apply list_elem_of_further | done].
      * intros [Hr|(root1 & dirs1 & files1 & Hin & Hex1 & Hm)]; [by left|].
        apply elem_of_cons in Hin as [Heq|Hin]; [simplify_eq; congruence|].
        right. by exists root1; exists dirs1; exists files1.
    + intros Hs r. rewrite (IH _ Hs), elem_of_app. split.
      * intros [[Hr|Hr]|(root1 & dirs1 & files1 & Hin & Hrest)].
        -- by left.
        -- right. exists root; exists dirs; exists files. split; [apply list_elem_of_here | done].
        -- right. exists root1; exists dirs1; exists files1.
           split; [by apply list_elem_of_further | done].
      * intros [Hr|(root1 & dirs1 & files1 & Hin & Hex1 & Hm)]; [by left; left|].
        apply elem_of_cons in Hin as [Heq|Hin]; [simplify_eq; by left; right|].
        right. by exists root1; exists dirs1; exists files1.
Qed.

(** X17. Every path [search_files] returns lies under the directory that was
    searched, ends in a name that contains the pattern, letter case
    aside, and starts with an allowed directory. *)
Theorem search_files_sound (data : SearchFilesRequest) (w : world)
    (results : list string) (r : string) :
  fst (search_files data w) = inr (FileMatches results) →
  r ∈ results →
  r = "No matches found" ∧ results = ["No matches found"]
  ∨ ∃ rel item,
      r = path_str (resolve (sf_path data) ++ rel ++ [item])
      ∧ PyStr.contains (lower (sf_pattern data)) (lower item) = true
      ∧ under_allowed r.
Proof.
  rewrite search_files_run. destruct (accepted (sf_path data)); [|done]. cbn [fst].
  destruct (search_loop _ _ _) as [e|found] eqn:Hs; [done|].
  intros [= <-] Hr.
  destruct found as [|r0 found].
  { left. apply list_elem_of_singleton in Hr. by subst. }
  right. cbn [or_placeholder] in Hr.
  destruct (sf_excludePatterns data) as [patterns|] eqn:Hpat.
  - destruct (proj1 (search_loop_elem _ _ _ _ _ Hpat Hs r) Hr)
      as [Hnil|(root & dirs & files & Hin & _ & Hm)]; [by apply elem_of_nil in Hnil|].
    apply matching_items_elem in Hm as (item & _ & Hc & Hal & ->).
    destruct (FS.lookup (fs w) (resolve (sf_path data))) as [n|];
      [|by apply elem_of_nil in Hin].
    destruct (walk_under_base _ _ _ _ _ _ Hin) as [rel ->].
    exists rel, item. unfold path_join in *. by rewrite (app_assoc _ rel).
  - destruct (match FS.lookup _ _ with Some n => _ | None => _ end)
      as [|[[root dirs] files] walked]; simpl in Hs; [|by rewrite Hpat in Hs].
    by injection Hs.
Qed.

Lemma lookup_app n p q :
  FS.lookup n (p ++ q) = FS.lookup n p ≫= (λ m, FS.lookup m q).
Proof.
  revert n. induction p as [|c p IH]; intros n; simpl; [done|].
  destruct n as [|es]; [done|]. destruct (Entries.lookup c es); [apply IH | done].
Qed.

(** X18. [search_files] finds every entry anywhere below the searched
    directory whose name contains the pattern and whose path starts with
    an allowed directory, provided the host lets the walk list the
    directory that holds the entry and every directory on the way down
    to it, and that directory does not itself match an exclude pattern.
    Whether a directory further up matches one is of no account. *)
Theorem search_files_complete (data : SearchFilesRequest) (w : world)
    (patterns : list string) (rel : Path) (es : list (string * node))
    (name : string) (entry : node) (results : list string) :
  sf_excludePatterns data = Some patterns →
  fst (search_files data w) = inr (FileMatches results) →
  FS.lookup (fs w) (resolve (sf_path data) ++ rel) = Some (Dir es) →
  (∀ k, refused w (resolve (sf_path data) ++ take k rel) = false) →
  (name, entry) ∈ es →
  excluded_by (resolve (sf_path data) ++ rel) patterns = inr false →
  PyStr.contains (lower (sf_pattern data)) (lower name) = true →
  under_allowed (path_str (resolve (sf_path data) ++ rel ++ [name])) →
  path_str (resolve (sf_path data) ++ rel ++ [name]) ∈ results.
Proof.
  intros Hpat Hrun Hl Hopen Hentry Hex Hc Hal. revert Hrun.
  rewrite search_files_run. destruct (accepted (sf_path data)); [|done]. cbn [fst].
  destruct (search_loop _ _ _) as [e|found] eqn:Hs; [done|].
  intros [= <-].
  rewrite lookup_app in Hl.
  destruct (FS.lookup (fs w) (resolve (sf_path data))) as [n|]; [|done].
  simpl in Hl.
  assert (path_str (resolve (sf_path data) ++ rel ++ [name]) ∈ found) as Hfound.
  { apply (search_loop_elem _ _ _ _ _ Hpat Hs). right.
    exists (resolve (sf_path data) ++ rel); exists (FS.dir_names es);
      exists (FS.file_names es).
    split; [by apply walk_reaches|]. split; [done|].
    apply matching_items_elem. exists name.
    unfold path_join. rewrite <- app_assoc. repeat split; try done.
    apply elem_of_app. unfold FS.file_names, FS.dir_names.
    destruct entry as [content|sub]; [left | right];
      apply list_elem_of_In, in_map_iff;
      [exists (name, File content) | exists (name, Dir sub)];
      (split; [done|]); by apply list_elem_of_In, list_elem_of_filter. }
  destruct found; [by apply elem_of_nil in Hfound | done].
Qed.

(** X19. Where the searched path is no directory, a file or nothing at all,
    the walk is empty and the answer is the placeholder, not an error,
    whatever the pattern and the exclude patterns. *)
Theorem search_files_no_directory (data : SearchFilesRequest) (w : world) :
  accepted (sf_path data) = true →
  (∀ es, FS.lookup (fs w) (resolve (sf_path data)) ≠ Some (Dir es)) →
  fst (search_files data w) = inr (FileMatches ["No matches found"]).
Proof.
  intros Hacc Hnd. rewrite search_files_run, Hacc. cbn [fst].
  destruct (FS.lookup _ _) as [[content|es]|]; [done | by destruct (Hnd es) | done].
Qed.

(** X20. A request whose [excludePatterns] is null fails on any directory
    that the host lets the walk list: the loop over the patterns raises
    a [TypeError] that no handler catches. On a directory the host
    refuses to list the walk is empty, the loop is never entered and the
    answer is the placeholder. *)
Theorem search_files_null_patterns (data : SearchFilesRequest) (w : world)
    (es : list (string * node)) :
  accepted (sf_path data) = true →
  sf_excludePatterns data = None →
  FS.lookup (fs w) (resolve (sf_path data)) = Some (Dir es) →
  if refused w (resolve (sf_path data))
  then fst (search_files data w) = inr (FileMatches ["No matches found"])
  else fst (search_files data w) = inl (TypeError "'NoneType' object is not iterable")
       ∧ status_of (TypeError "'NoneType' object is not iterable") = 500.
Proof.
  intros Hacc Hpat Hl. rewrite search_files_run, Hacc, Hl, walk_unfold. cbn [fst].
  destruct (refused w _); [done|]. simpl. by rewrite Hpat.
Qed.

End SearchMore.

(** ** Listing, tree and creation of directories *)

Section DirectoriesMore.

Context `{Platform}.




Lemma entries_set_lookup_id c child es :
  Entries.lookup c es = Some child → Entries.set c child es = es.
Proof.
  induction es as [|[k m] es IH]; simpl; [done|].
  destruct (String.eqb_spec k c) as [->|Hne]; [by intros [= ->]|].
  intros Hl. by rewrite IH.
Qed.

Lemma mkdir_p_lookup n p n' :
  FS.mkdir_p n p = inr n' → ∃ es, FS.lookup n' p = Some (Dir es).
Proof.
  revert n n'. induction p as [|c p IH]; intros [content|es] n'; simpl; try done.
  - intros [= <-]. eauto.
  - destruct (FS.mkdir_p _ p) as [e|child'] eqn:Hc; [done|]. intros [= <-].
    simpl. rewrite entries_lookup_set_eq. by eapply IH.
Qed.

Lemma mkdir_p_existing n p es :
  FS.lookup n p = Some (Dir es) → FS.mkdir_p n p = inr n.
Proof.
  revert n. induction p as [|c p IH]; intros [content|es0]; simpl; try done.
  destruct (Entries.lookup c es0) as [child|] eqn:Ec; [|done]. simpl.
  intros Hl. by rewrite (IH _ Hl), (entries_set_lookup_id _ _ _ Ec).
Qed.

(** X22. After [create_directory] has succeeded the path is a directory, and
    on a path that already is a directory it succeeds and changes
    nothing. *)
Theorem create_directory_idempotent (path : string) (w : world) :
  accepted path = true →
  (∀ resp, fst (create_directory path w) = inr resp →
           ∃ es, FS.lookup (fs (snd (create_directory path w))) (resolve path)
                 = Some (Dir es))
  ∧ (∀ es, FS.lookup (fs w) (resolve path) = Some (Dir es) →
           refused w (resolve path) = false →
           fst (create_directory path w)
           = inr (SuccessResponse ("Successfully created directory " +:+ path))
           ∧ fs (snd (create_directory path w)) = fs w).
Proof.
  intros Hacc. unfold create_directory, bind, try_except. step. rewrite Hacc.
  unfold Host.mkdir_p. step. split.
  - intros resp. destruct (refused w _); [done|].
    destruct (FS.mkdir_p _ _) as [e|n] eqn:Hm; [by destruct (is_PermissionError e)|].
    intros _. by eapply mkdir_p_lookup.
  - intros es Hl ->. by rewrite (mkdir_p_existing _ _ _ Hl).
Qed.

End DirectoriesMore.

(** ** Moving and metadata *)

Section MoveMore.

Context `{Platform}.


(** X24. [get_metadata] likewise: for a path that does not exist the caller
    gets a 500 that wraps the 404. *)
Theorem get_metadata_missing (path : string) (w : world) :
  accepted path = true →
  FS.lookup (fs w) (resolve path) = None →
  fst (get_metadata path w) =
    inl (HTTPException 500
           (Text ("Failed to get metadata for " +:+ path
                  +:+ ": 404: Path not found: " +:+ path))).
Proof.
  intros Hacc Hl. unfold get_metadata, bind, try_except.
  step. rewrite Hacc. step. rewrite Hl.
  by rewrite bool_decide_false by (by intros [? ?]).
Qed.

End MoveMore.

(** ** The space of tokens *)

Section TokensMore.

Lemma hex_value_digit n : hex_value (hex_digit n) = (n mod 16)%N.
Proof.
  unfold hex_digit.
  assert (n mod 16 < 16)%N as Hlt by (apply N.mod_lt; lia).
  destruct (n mod 16)%N as [|p]; [done|].
  do 4 (try destruct p as [p|p|]); try reflexivity; lia.
Qed.

Lemma high_digit_small n : (n < 256 → (n / 16) mod 16 = n / 16)%N.
Proof.
  intros Hn. apply N.mod_small, N.Div0.div_lt_upper_bound. lia.
Qed.

Lemma byte_of_digits n m :
  (n < 256 → m < 256 →
   (n / 16) mod 16 = (m / 16) mod 16 → n mod 16 = m mod 16 → n = m)%N.
Proof.
  intros Hn Hm Hq Hr. rewrite !high_digit_small in Hq by done.
  rewrite (N.div_mod n 16), (N.div_mod m 16) by lia. by rewrite Hq, Hr.
Qed.

(** X25. Two draws of three random bytes give the same token exactly when
    they agree on the first two bytes and on the high half of the third:
    the low four bits of the third byte never reach the token, so the
    tokens are [2^20] in number. *)
Theorem new_token_injective (b0 b1 b2 c0 c1 c2 : N) :
  (b0 < 256 → b1 < 256 → b2 < 256 → c0 < 256 → c1 < 256 → c2 < 256 →
   (new_token (b0, b1, b2) = new_token (c0, c1, c2)
    ↔ b0 = c0 ∧ b1 = c1 ∧ b2 / 16 = c2 / 16))%N.
Proof.
  intros Hb0 Hb1 Hb2 Hc0 Hc1 Hc2. split.
  - unfold new_token. cbn [hex_of_bytes PyStr.take].
    intros [= E1 E2 E3 E4 E5].
    apply (f_equal hex_value) in E1, E2, E3, E4, E5.
    rewrite !hex_value_digit in *.
    rewrite !high_digit_small in E5 by done.
    split; [by apply byte_of_digits|]. split; [by apply byte_of_digits|done].
  - intros (-> & -> & E). unfold new_token. cbn [hex_of_bytes PyStr.take].
    by rewrite E.
Qed.

End TokensMore.

(** ** The scan of [search_content] *)

Section ContentMore.

Context `{Platform}.




(** X27. [search_content] refuses a base that is no directory with a 400,
    before any pattern is expanded. *)
Theorem search_content_no_directory (data : SearchContentRequest) (w : world) :
  accepted (sc_path data) = true →
  (∀ es, FS.lookup (fs w) (resolve (sc_path data)) ≠ Some (Dir es)) →
  fst (search_content data w)
  = inl (HTTPException 400 (Text "Provided path is not a directory"))
  ∧ io_log (snd (search_content data w))
    = io_log w ++ [EvResolve (sc_path data); EvStat (resolve (sc_path data))].
Proof.
  intros Hacc Hno. unfold search_content, bind.
  step. rewrite Hacc. step.
  destruct (FS.lookup (fs w) (resolve (sc_path data))) as [[content|es]|] eqn:Hl;
    fields; [|by destruct (Hno es)|].
  - split; [done|]. unfold add_logs. fields. by rewrite <- app_assoc.
  - split; [done|]. unfold add_logs. fields. by rewrite <- app_assoc.
Qed.

End ContentMore.

(** ** The path guard compares text *)

Section GuardMore.

Context `{Platform}.

(** X28. The guard compares text, not components: a path whose resolved
    text merely begins with the text of an allowed directory is let
    through, whatever follows, a separator or not. With [/data] allowed,
    [/database/x] passes. The hypothesis on [lower] holds of every text
    whose lower-casing goes letter by letter. *)
Theorem normalize_path_textual_prefix (P allowed tail : string) (w : world) :
  allowed ∈ ALLOWED_DIRECTORIES →
  path_str (resolve P) = allowed +:+ tail →
  lower (allowed +:+ tail) = lower allowed +:+ lower tail →
  fst (normalize_path P w) = inr (resolve P).
Proof.
  intros Hin Htext Hlower. rewrite normalize_path_run.
  assert (accepted P = true) as ->; [|done].
  apply accepted_spec. exists allowed, (lower tail). by rewrite Htext.
Qed.

End GuardMore.

(** * The further properties at concrete requests *)

Module MoreExamples.
Import Demo.

(** X1 at a concrete request. *)
Lemma save_confirmations_swallows_witness :
  let m : gmap string confirmation := {["abcde" := minute "/data/a.txt" false]} in
  let w := sealed data_tree Missing in
  fst (save_confirmations m w) = inr tt
  ∧ conf_file (snd (save_confirmations m w)) = Missing.
Proof.
  intros m w. destruct (save_confirmations_swallows m w) as (Hr & _ & Hc).
  split; [exact Hr | apply Hc; reflexivity].
Defined.

(** X2 at a concrete request. *)
Lemma save_then_load_witness :
  let m : gmap string confirmation := {["abcde" := minute "/data/a.txt" false]} in
  ∃ loaded,
    fst (load_confirmations second (snd (save_confirmations m (quiet data_tree Missing))))
    = inr loaded
    ∧ loaded !! "abcde" = Some (minute "/data/a.txt" false).
Proof.
  intros m.
  destruct (save_then_load m second (quiet data_tree Missing)) as (loaded & Hr & Hl);
    [reflexivity|].
  exists loaded. split; [exact Hr|]. apply Hl. split; [by vm_compute | by vm_compute].
Defined.

(** X3 on a host that refuses to remove the snapshot, and on one that
    lets it. *)
Lemma restart_discards_tokens_witness :
  let stored := Snapshot {["abcde" := Stored (minute "/data/a.txt" false)]} in
  let kept := cleanup_stale_confirmation_file (sealed data_tree stored) in
  let started := snd (cleanup_stale_confirmation_file (quiet data_tree stored)) in
  fst kept = inr tt
  ∧ conf_file (snd kept) = stored
  ∧ fst (@delete_path data_platform second second abcdef (a_txt (Some "abcde")) started)
    = inl (HTTPException 400 (Text "Invalid or expired confirmation token.")).
Proof.
  intros stored kept started.
  destruct (@restart_discards_tokens data_platform (sealed data_tree stored)
              second second abcdef (a_txt (Some "abcde")) "abcde")
    as (Hr & _ & Hkept & _).
  destruct (@restart_discards_tokens data_platform (quiet data_tree stored)
              second second abcdef (a_txt (Some "abcde")) "abcde")
    as (_ & _ & _ & Hgone).
  split; [exact Hr|]. split; [apply Hkept; reflexivity|].
  destruct (Hgone eq_refl) as [_ Hrun].
  apply Hrun; [reflexivity | by vm_compute].
Defined.


(** X5 at a concrete request. *)
Lemma delete_path_missing_target_witness :
  let w := quiet data_tree Missing in
  let run := @delete_path data_platform 0 0 abcdef (gone None) w in
  fst run = inl (HTTPException 404 (Text "Path not found: /data/gone"))
  ∧ conf_file (snd run) = Missing.
Proof.
  intros w run.
  destruct (@delete_path_missing_target data_platform 0 0 abcdef (gone None) w)
    as (Hr & Hc & _); [reflexivity | reflexivity | by vm_compute | by vm_compute |].
  split; [exact Hr | exact Hc].
Defined.

(** X6 at a concrete request. *)
Lemma delete_needs_confirmation_witness :
  let stored : gmap string raw_entry := {["abcde" := Stored (minute "/data/a.txt" false)]} in
  let w := quiet data_tree (Snapshot stored) in
  ∃ token, supplied_token (a_txt (Some "abcde")) = Some token
           ∧ ∃ cd, stored !! token = Some (Stored cd).
Proof.
  intros stored w.
  destruct (@delete_needs_confirmation data_platform second second abcdef
              (a_txt (Some "abcde")) w)
    as (stored' & token & cd & Hs & Ht & Hl & _).
  - vm_compute. discriminate.
  - exists token. split; [exact Ht|]. exists cd.
    injection Hs as <-. exact Hl.
Defined.

(** X7 at a concrete request. *)
Lemma delete_path_nonempty_directory_witness :
  let stored : gmap string raw_entry := {["abcde" := Stored (minute "/data/d" false)]} in
  let w := quiet data_tree (Snapshot stored) in
  let run := @delete_path data_platform second second abcdef
               (d_dir false (Some "abcde")) w in
  fs (snd run) = data_tree
  ∧ ∃ left, conf_file (snd run) = Snapshot left ∧ left !! "abcde" = None.
Proof.
  intros stored w run.
  destruct (@delete_path_nonempty_directory data_platform second second abcdef
              (d_dir false (Some "abcde")) w stored "abcde" (minute "/data/d" false)
              ("x", File "") [])
    as (Hfs & Hleft & _).
  - reflexivity.
  - by vm_compute.
  - by vm_compute.
  - by vm_compute.
  - reflexivity.
  - by vm_compute.
  - reflexivity.
  - reflexivity.
  - reflexivity.
  - reflexivity.
  - vm_compute. discriminate.
  - reflexivity.
  - by vm_compute.
  - split; [exact Hfs | exact Hleft].
Defined.

(** X8 at a concrete request. *)
Lemma delete_path_issue_prunes_witness :
  let w := quiet data_tree (Snapshot mixed_snapshot) in
  let run := @delete_path data_platform second second abcdef (a_txt None) w in
  ∃ new,
    conf_file (snd run) = Snapshot new
    ∧ new !! "abcde" = Some (Stored (Confirmation "/data/a.txt" false (61 * second)))
    ∧ new !! "11111" = Some (Stored (minute "/data/b.txt" false))
    ∧ new !! "22222" ≠ Some (Stored (Confirmation "/data/b.txt" false 0))
    ∧ new !! "33333" ≠ Some (Broken ExpiryNaive).
Proof.
  intros w run.
  destruct (@delete_path_issue_prunes data_platform second second abcdef
              "/data/a.txt" false w mixed_snapshot)
    as (new & Hc & Hnew & Hold & Hbroken).
  - reflexivity.
  - reflexivity.
  - by vm_compute.
  - vm_compute. by eexists.
  - exists new. split; [exact Hc|]. split; [exact Hnew|].
    split; [|split].
    + apply Hold; [vm_compute; discriminate|]. split; by vm_compute.
    + intros Hk. apply Hold in Hk; [|vm_compute; discriminate].
      destruct Hk as [_ Hlt]. vm_compute in Hlt. discriminate.
    + apply Hbroken.
Defined.

(** X9 at a concrete request. *)
Lemma delete_path_issue_unsaved_witness :
  let w := sealed data_tree Missing in
  let run := @delete_path data_platform 0 0 abcdef (a_txt None) w in
  (∃ msg, fst run = inr (ConfirmationRequiredResponse msg "abcde" (60 * second)))
  ∧ conf_file (snd run) = Missing.
Proof.
  intros w run.
  destruct (@delete_path_issue_unsaved data_platform 0 0 abcdef "/data/a.txt" false w)
    as (Hr & Hc & _).
  - reflexivity.
  - reflexivity.
  - by vm_compute.
  - vm_compute. by eexists.
  - split; [exact Hr | exact Hc].
Defined.


(** X11 on a content with carriage returns: ["a\r\nb\rc"] is read back
    as ["a\nb\nc"]. *)
Lemma write_then_read_witness :
  let w := quiet data_tree Missing in
  fst (@read_file data_platform "/data/a.txt"
         (snd (@write_file data_platform write_returns w)))
  = inr (ReadFileResponse with_feeds).
Proof.
  intros w.
  apply (@write_then_read data_platform write_returns w
           (SuccessResponse "Successfully wrote to /data/a.txt")).
  - by vm_compute.
  - by vm_compute.
  - by vm_compute.
Defined.

(** X12 on a path below a regular file and on a file that is not UTF-8:
    both are answered with a 500. *)
Lemma read_file_statuses_witness :
  (∃ e, fst (@read_file data_platform "/data/a.txt/x" (quiet raw_tree Missing)) = inl e
        ∧ status_of e = 500)
  ∧ (∃ e, fst (@read_file data_platform "/data/raw" (quiet raw_tree Missing)) = inl e
          ∧ status_of e = 500).
Proof.
  split.
  - pose proof (@read_file_statuses data_platform "/data/a.txt/x" (quiet raw_tree Missing)
                  ltac:(by vm_compute)) as Hst.
    cbv zeta in Hst.
    destruct (fst (@read_file data_platform "/data/a.txt/x" (quiet raw_tree Missing)))
      as [e|resp].
    + exists e. split; [reflexivity|].
      destruct Hst as [[_ Hrf] | [(_ & _ & _ & Hb) | [Hs _]]];
        [vm_compute in Hrf; discriminate | vm_compute in Hb; discriminate | exact Hs].
    + destruct Hst as (content & text & _ & Hl & _). vm_compute in Hl. discriminate.
  - pose proof (@read_file_statuses data_platform "/data/raw" (quiet raw_tree Missing)
                  ltac:(by vm_compute)) as Hst.
    cbv zeta in Hst.
    destruct (fst (@read_file data_platform "/data/raw" (quiet raw_tree Missing)))
      as [e|resp].
    + exists e. split; [reflexivity|].
      destruct Hst as [[_ Hrf] | [(_ & _ & Hl & _) | [Hs _]]];
        [vm_compute in Hrf; discriminate | vm_compute in Hl; discriminate | exact Hs].
    + destruct Hst as (content & text & _ & Hl & Hd & _).
      vm_compute in Hl. injection Hl as <-. vm_compute in Hd. discriminate.
Defined.

(** X13 at the edit of the specification. *)
Lemma edit_then_read_witness :
  let w := quiet data_tree Missing in
  fst (@read_file data_platform "/data/a.txt"
         (snd (@edit_file data_platform (foo_to_bar false) w)))
  = inr (ReadFileResponse "bar baz foo").
Proof.
  intros w.
  destruct (@edit_then_read data_platform (foo_to_bar false) w
              "foo baz foo" "foo baz foo"
              (SuccessResponse "Successfully edited file /data/a.txt"))
    as (modified & Happ & Hread).
  - by vm_compute.
  - by vm_compute.
  - by vm_compute.
  - reflexivity.
  - by vm_compute.
  - apply apply_edits_applies in Happ. vm_compute in Happ. injection Happ as <-.
    apply Hread. by vm_compute.
Defined.

(** X14 at a concrete request. *)
Lemma apply_edits_empty_oldText_witness :
  apply_edits [{| oldText := ""; newText := "a" |}; {| oldText := ""; newText := "b" |}] "c"
  = inr "bac".
Proof.
  apply (apply_edits_empty_oldText
           [{| oldText := ""; newText := "a" |}; {| oldText := ""; newText := "b" |}] "c").
  repeat constructor.
Defined.

(** X15 at a concrete request. *)
Lemma read_only_handlers_witness :
  let w := quiet data_tree (Snapshot mixed_snapshot) in
  fs (snd (@handle glob_platform (SearchContent (grep_foo "/data")) w)) = data_tree
  ∧ conf_file (snd (@handle glob_platform (SearchContent (grep_foo "/data")) w))
    = Snapshot mixed_snapshot.
Proof.
  intros w.
  apply (@read_only_handlers glob_platform (SearchContent (grep_foo "/data")) w).
  reflexivity.
Defined.

(** X17 at a concrete request. *)
Lemma search_files_sound_witness :
  ∃ rel item,
    "/data/d/x" = path_str (["data"] ++ rel ++ [item])
    ∧ PyStr.contains "x" (ascii_lower item) = true.
Proof.
  destruct (@search_files_sound data_platform (search_x (Some []))
              (quiet data_tree Missing) ["/data/a.txt"; "/data/b.txt"; "/data/d/x"]
              "/data/d/x")
    as [[Hp _] | (rel & item & Hr & Hc & _)].
  - by vm_compute.
  - apply elem_of_cons; right. apply elem_of_cons; right. apply elem_of_cons; by left.
  - discriminate Hp.
  - exists rel, item. split; [exact Hr | exact Hc].
Defined.

(** X18 at a concrete request. *)
Lemma search_files_complete_witness :
  "/data/d/x" ∈ ["/data/a.txt"; "/data/b.txt"; "/data/d/x"].
Proof.
  apply (@search_files_complete data_platform (search_x (Some []))
           (quiet data_tree Missing) [] ["d"] [("x", File "")] "x" (File "")).
  - reflexivity.
  - by vm_compute.
  - by vm_compute.
  - intros k. reflexivity.
  - apply elem_of_cons; by left.
  - reflexivity.
  - by vm_compute.
  - exists "/data", "/d/x". split; [apply elem_of_cons; by left | reflexivity].
Defined.

(** X19 at a concrete request. *)
Lemma search_files_no_directory_witness :
  fst (@search_files data_platform
         {| sf_path := "/data/a.txt"; sf_pattern := "a"; sf_excludePatterns := None |}
         (quiet data_tree Missing))
  = inr (FileMatches ["No matches found"]).
Proof.
  apply @search_files_no_directory.
  - by vm_compute.
  - intros es. vm_compute. discriminate.
Defined.

(** X20 on a directory the host lets the walk list, and on one it
    refuses. *)
Lemma search_files_null_patterns_witness :
  fst (@search_files data_platform (search_x None) (quiet data_tree Missing))
  = inl (TypeError "'NoneType' object is not iterable")
  ∧ fst (@search_files data_platform (search_x None) (shut ["data"] data_tree))
    = inr (FileMatches ["No matches found"]).
Proof.
  split.
  - pose proof (@search_files_null_patterns data_platform (search_x None)
                  (quiet data_tree Missing)
                  [("a.txt", File "foo baz foo"); ("b.txt", File "other");
                   ("d", Dir [("x", File "")])]
                  ltac:(by vm_compute) eq_refl ltac:(by vm_compute)) as Hrun.
    exact (proj1 Hrun).
  - exact (@search_files_null_patterns data_platform (search_x None)
             (shut ["data"] data_tree)
             [("a.txt", File "foo baz foo"); ("b.txt", File "other");
              ("d", Dir [("x", File "")])]
             ltac:(by vm_compute) eq_refl ltac:(by vm_compute)).
Defined.


(** X22 at a concrete request. *)
Lemma create_directory_idempotent_witness :
  let w := quiet data_tree Missing in
  fst (@create_directory data_platform "/data/d" w)
  = inr (SuccessResponse "Successfully created directory /data/d")
  ∧ fs (snd (@create_directory data_platform "/data/d" w)) = data_tree.
Proof.
  intros w.
  destruct (@create_directory_idempotent data_platform "/data/d" w) as [_ Hsame];
    [by vm_compute|].
  apply (Hsame [("x", File "")]); [by vm_compute | reflexivity].
Defined.


(** X24 at a concrete request. *)
Lemma get_metadata_missing_witness :
  fst (@get_metadata data_platform "/data/gone" (quiet data_tree Missing))
  = inl (HTTPException 500
           (Text "Failed to get metadata for /data/gone: 404: Path not found: /data/gone")).
Proof.
  apply (@get_metadata_missing data_platform "/data/gone" (quiet data_tree Missing)).
  - by vm_compute.
  - by vm_compute.
Defined.

(** X25: the bytes [ab cd ef] and [ab cd e0] give the same token. *)
Lemma new_token_injective_witness :
  new_token abcdef = new_token (171, 205, 224)%N.
Proof.
  apply (new_token_injective 171 205 239 171 205 224); try reflexivity.
  by vm_compute.
Defined.


(** X28 at a concrete request. *)
Lemma normalize_path_textual_prefix_witness :
  fst (@normalize_path data_platform "/database/x" (quiet data_tree Missing))
  = inr ["database"; "x"].
Proof.
  apply (@normalize_path_textual_prefix data_platform "/database/x" "/data" "base/x").
  - apply elem_of_cons; by left.
  - by vm_compute.
  - by vm_compute.
Defined.

(** X27 at a concrete request. *)
Lemma search_content_no_directory_witness :
  fst (@search_content glob_platform (grep_foo "/data/a.txt") (quiet data_tree Missing))
  = inl (HTTPException 400 (Text "Provided path is not a directory")).
Proof.
  eapply proj1, (@search_content_no_directory glob_platform (grep_foo "/data/a.txt")
                   (quiet data_tree Missing)).
  - by vm_compute.
  - intros es. vm_compute. discriminate.
Defined.

End MoreExamples.
